(** * Carpooling matcher: a shallow embedding of [main.py]

    The request handler [match_passengers] and its helpers are embedded as
    Rocq functions.  Python floats are IEEE binary64 values ([PrimFloat.float]),
    Python ints are [Z], the untyped outcome dictionaries are finite maps from
    string keys, and everything the handler does to the outside world (calls to
    the Google Maps client, to [haversine], the saved map file) is recorded in
    a chronological trace threaded through a small exception-and-trace monad. *)

From Stdlib Require Import Floats.
From stdpp Require Import gmap strings list fin_maps.

Local Open Scope string_scope.
Local Open Scope list_scope.
Local Open Scope Z_scope.

(* Decimal literals denote the nearest binary64 value, as they do in Python. *)
Set Warnings "-inexact-float".

(** ** Data model *)

(** A coordinate is the Python tuple [(lat, lng)] of two floats. *)
Abbreviation Coord := (float * float)%type.

(** [Any]-typed values stored in the outcome dictionaries. *)
Inductive Value :=
| VStr (s : string)
| VCoords (c : Coord).

(** An outcome entry, a [Dict[str, Any]]. *)
Abbreviation Entry := (gmap string Value).

Record Location := {
  address : string;
  coordinates : option Coord
}.

Record Passenger := {
  name : string;
  origin : Location;
  destination : Location
}.

Record Driver := {
  driver_origin : string;
  driver_destination : string;
  seats_available : Z
}.

Record MatchRequest := {
  driver : Driver;
  passengers : list Passenger;
  tolerance_km : float
}.

Record MatchResponse := {
  matched_passengers : list Entry;
  unmatched_passengers : list Entry;
  seats_remaining : Z;
  map_url : option string
}.

(** The part of [googlemaps.Client] the program uses.  [directions] gives, for
    each route the provider returns, its [overview_polyline.points] string;
    [geocode] gives, for each result, its [geometry.location] as [(lat, lng)]. *)
Record Client := {
  directions : string -> string -> list string;
  geocode : string -> list Coord
}.

(** ** Exceptions, events and the handler monad *)

Inductive Exn :=
| HTTPException (status_code : Z) (detail : string)
| RequestValidationError (loc : string).

Inductive Event :=
| EvDirections (origin_addr destination_addr : string)
| EvGeocode (addr : string)
| EvHaversine (point1 point2 : Coord)
| EvSaveMap (path : string).

(** A computation reads the trace so far and returns an exception or a value,
    with the extended trace. *)
Definition M (A : Type) : Type := list Event -> (Exn + A) * list Event.

Definition ret {A} (a : A) : M A := fun tr => (inr a, tr).

Definition raise {A} (e : Exn) : M A := fun tr => (inl e, tr).

Definition bind {A B} (m : M A) (k : A -> M B) : M B :=
  fun tr =>
    match m tr with
    | (inl e, tr') => (inl e, tr')
    | (inr a, tr') => k a tr'
    end.

Definition emit (e : Event) : M unit := fun tr => (inr tt, tr ++ [e]).

Declare Scope handler_scope.
Delimit Scope handler_scope with handler.
Notation "x <- m ;; k" := (bind m (fun x => k))
  (at level 100, m at next level, right associativity) : handler_scope.
Notation "m ;;; k" := (bind m (fun _ => k))
  (at level 100, right associativity) : handler_scope.
Local Open Scope handler_scope.

(** ** Outcome dictionaries, as the literals of [match_passengers] build them *)

Definition no_seats_entry (p : Passenger) : Entry :=
  {[ "name" := VStr (name p);
     "origin_address" := VStr (address (origin p));
     "destination_address" := VStr (address (destination p));
     "reason" := VStr "No seats available" ]}.

Definition geocode_failed_entry (p : Passenger) : Entry :=
  {[ "name" := VStr (name p);
     "origin_address" := VStr (address (origin p));
     "destination_address" := VStr (address (destination p));
     "reason" := VStr "Could not geocode addresses" ]}.

Definition matched_entry (p : Passenger) (origin_coords dest_coords : Coord) : Entry :=
  {[ "name" := VStr (name p);
     "origin_address" := VStr (address (origin p));
     "destination_address" := VStr (address (destination p));
     "origin_coords" := VCoords origin_coords;
     "destination_coords" := VCoords dest_coords ]}.

Definition not_on_route_entry (p : Passenger) (origin_coords dest_coords : Coord) : Entry :=
  {[ "name" := VStr (name p);
     "origin_address" := VStr (address (origin p));
     "destination_address" := VStr (address (destination p));
     "origin_coords" := VCoords origin_coords;
     "destination_coords" := VCoords dest_coords;
     "reason" := VStr "Not on driver's route" ]}.

(** [str.replace(old, "")]: every occurrence of [old], scanning left to right
    without overlap, is dropped.  [skip] counts the characters of the current
    occurrence still to drop. *)
Fixpoint remove_all_from (old s : string) (skip : nat) : string :=
  match s with
  | EmptyString => EmptyString
  | String c s' =>
      match skip with
      | S n => remove_all_from old s' n
      | O =>
          if (String.prefix old s && negb (String.eqb old ""))%bool
          then remove_all_from old s' (String.length old - 1)%nat
          else String c (remove_all_from old s' O)
      end
  end.

Definition str_remove (old s : string) : string := remove_all_from old s O.

Section Handler.

(** The library functions the program imports; their code is not part of the
    repository.  Both are taken as total functions: [haversine(point1, point2)]
    returns a distance in kilometres, [polyline.decode] a list of points.  A
    run on which a library call raises (the library's [haversine] refuses a
    latitude or longitude out of range) lies outside the model: what is proved
    of an answered request holds of the runs that get an answer. *)
Variable haversine : Coord -> Coord -> float.
Variable polyline_decode : string -> list Coord.

Definition call_haversine (point1 point2 : Coord) : M float :=
  emit (EvHaversine point1 point2) ;;; ret (haversine point1 point2).

(** [get_route_coords] *)
Definition get_route_coords (gmaps : option Client) (origin_addr destination_addr : string)
  : M (list Coord) :=
  match gmaps with
  | None => raise (HTTPException 500 "Google Maps API not initialized")
  | Some client =>
      emit (EvDirections origin_addr destination_addr) ;;;
      match directions client origin_addr destination_addr with
      | [] => ret []
      | overview_polyline :: _ => ret (polyline_decode overview_polyline)
      end
  end.

(** [any(haversine(x, point) <= tolerance_km for point in driver_route)]:
    the generator is consumed up to the first waypoint that is near. *)
Fixpoint any_near (x : Coord) (driver_route : list Coord) (tolerance_km : float) : M bool :=
  match driver_route with
  | [] => ret false
  | point :: rest =>
      d <- call_haversine x point ;;
      if PrimFloat.leb d tolerance_km then ret true
      else any_near x rest tolerance_km
  end.

(** [is_passenger_match] *)
Definition is_passenger_match (driver_route : list Coord)
    (passenger_origin passenger_destination : Coord) (tolerance_km : float) : M bool :=
  origin_near <- any_near passenger_origin driver_route tolerance_km ;;
  dest_near <- any_near passenger_destination driver_route tolerance_km ;;
  ret (origin_near && dest_near).

(** [geocode_address] *)
Definition geocode_address (gmaps : option Client) (addr : string) : M (option Coord) :=
  match gmaps with
  | None => raise (HTTPException 500 "Google Maps API not initialized")
  | Some client =>
      emit (EvGeocode addr) ;;;
      match geocode client addr with
      | location :: _ => ret (Some location)
      | [] => ret None
      end
  end.

(** [generate_map]: the rendering itself is only recorded as the file it
    saves; the function returns the file name without its folder.  What the
    drawing before the save builds, and what it can raise, is [build_map]
    below. *)
Definition generate_map (map_id : string) (driver_route : list Coord)
    (matches unmatched : list Entry) : M (option string) :=
  match driver_route with
  | [] => ret None
  | _ :: _ =>
      let map_path := "static/carpool_map_" +:+ map_id +:+ ".html" in
      emit (EvSaveMap map_path) ;;;
      ret (Some (str_remove "static/" map_path))
  end.

(** The local variables of the passenger loop. *)
Record Loop := {
  seats : Z;
  matched : list Entry;
  unmatched : list Entry
}.

(** [p.origin.coordinates if p.origin.coordinates else geocode_address(...)] *)
Definition resolve (gmaps : option Client) (loc : Location) : M (option Coord) :=
  match coordinates loc with
  | Some c => ret (Some c)
  | None => geocode_address gmaps (address loc)
  end.

(** One iteration of [for p in request.passengers]. *)
Definition loop_body (gmaps : option Client) (driver_route : list Coord)
    (tolerance_km : float) (st : Loop) (p : Passenger) : M Loop :=
  if seats st =? 0 then
    ret {| seats := seats st;
           matched := matched st;
           unmatched := unmatched st ++ [no_seats_entry p] |}
  else
    origin_coords <- resolve gmaps (origin p) ;;
    dest_coords <- resolve gmaps (destination p) ;;
    match origin_coords, dest_coords with
    | Some oc, Some dc =>
        is_match <- is_passenger_match driver_route oc dc tolerance_km ;;
        if is_match : bool then
          ret {| seats := seats st - 1;
                 matched := matched st ++ [matched_entry p oc dc];
                 unmatched := unmatched st |}
        else
          ret {| seats := seats st;
                 matched := matched st;
                 unmatched := unmatched st ++ [not_on_route_entry p oc dc] |}
    | _, _ =>
        ret {| seats := seats st;
               matched := matched st;
               unmatched := unmatched st ++ [geocode_failed_entry p] |}
    end.

Fixpoint for_each (body : Loop -> Passenger -> M Loop) (st : Loop) (ps : list Passenger)
  : M Loop :=
  match ps with
  | [] => ret st
  | p :: rest => st' <- body st p ;; for_each body st' rest
  end.

(** [match_passengers], the body of [POST /match/].  [gmaps] is the global
    client handle, [uuid4] the string [str(uuid.uuid4())] draws in this call. *)
Definition match_passengers (gmaps : option Client) (uuid4 : string)
    (request : MatchRequest) : M MatchResponse :=
  match gmaps with
  | None => raise (HTTPException 500 "Google Maps API not initialized")
  | Some _ =>
      driver_route <- get_route_coords gmaps (driver_origin (driver request))
                        (driver_destination (driver request)) ;;
      match driver_route with
      | [] => raise (HTTPException 404 "Could not find a route for the driver")
      | _ :: _ =>
          st <- for_each (loop_body gmaps driver_route (tolerance_km request))
                  {| seats := seats_available (driver request);
                     matched := []; unmatched := [] |}
                  (passengers request) ;;
          map_file <- generate_map uuid4 driver_route (matched st) (unmatched st) ;;
          let map_url :=
            match map_file with
            | Some f => Some ("/static/" +:+ f)
            | None => None
            end in
          ret {| matched_passengers := matched st;
                 unmatched_passengers := unmatched st;
                 seats_remaining := seats st;
                 map_url := map_url |}
      end
  end.

(** The validation FastAPI runs on the request body before the handler:
    [seats_available: int = Field(gt=0)] is the only constraint of the models. *)
Definition validate (request : MatchRequest) : M unit :=
  if 0 <? seats_available (driver request) then ret tt
  else raise (RequestValidationError "driver.seats_available").

Definition post_match (gmaps : option Client) (uuid4 : string)
    (request : MatchRequest) : M MatchResponse :=
  validate request ;;; match_passengers gmaps uuid4 request.

End Handler.

(** ** Pure readings of the handler, used to state and prove its properties *)

Section Readings.

Variable haversine : Coord -> Coord -> float.

(** The value [any_near] returns. *)
Definition near (x : Coord) (driver_route : list Coord) (tolerance_km : float) : bool :=
  existsb (fun point => PrimFloat.leb (haversine x point) tolerance_km) driver_route.

(** The calls [any_near] makes. *)
Fixpoint near_calls (x : Coord) (driver_route : list Coord) (tolerance_km : float)
  : list Event :=
  match driver_route with
  | [] => []
  | point :: rest =>
      EvHaversine x point ::
      (if PrimFloat.leb (haversine x point) tolerance_km then []
       else near_calls x rest tolerance_km)
  end.

(** The coordinate [resolve] returns with an initialised client. *)
Definition resolved (client : Client) (loc : Location) : option Coord :=
  match coordinates loc with
  | Some c => Some c
  | None => head (geocode client (address loc))
  end.

(** A passenger resolves both endpoints and passes the proximity test. *)
Definition on_route (client : Client) (driver_route : list Coord) (tolerance_km : float)
    (p : Passenger) : bool :=
  match resolved client (origin p), resolved client (destination p) with
  | Some oc, Some dc =>
      near oc driver_route tolerance_km && near dc driver_route tolerance_km
  | _, _ => false
  end.

(** The entry a passenger gets when a seat is left. *)
Definition seated_entry (client : Client) (driver_route : list Coord) (tolerance_km : float)
    (p : Passenger) : Entry :=
  match resolved client (origin p), resolved client (destination p) with
  | Some oc, Some dc =>
      if near oc driver_route tolerance_km && near dc driver_route tolerance_km
      then matched_entry p oc dc
      else not_on_route_entry p oc dc
  | _, _ => geocode_failed_entry p
  end.

(** The loop state one iteration leads to. *)
Definition step (client : Client) (driver_route : list Coord) (tolerance_km : float)
    (st : Loop) (p : Passenger) : Loop :=
  if seats st =? 0 then
    {| seats := seats st; matched := matched st;
       unmatched := unmatched st ++ [no_seats_entry p] |}
  else if on_route client driver_route tolerance_km p then
    {| seats := seats st - 1;
       matched := matched st ++ [seated_entry client driver_route tolerance_km p];
       unmatched := unmatched st |}
  else
    {| seats := seats st; matched := matched st;
       unmatched := unmatched st ++ [seated_entry client driver_route tolerance_km p] |}.

(** The loop state before the first passenger. *)
Definition initial (request : MatchRequest) : Loop :=
  {| seats := seats_available (driver request); matched := []; unmatched := [] |}.

(** The route [get_route_coords] returns with an initialised client. *)
Definition route_of (polyline_decode : string -> list Coord) (client : Client)
    (d : Driver) : list Coord :=
  match directions client (driver_origin d) (driver_destination d) with
  | [] => []
  | overview_polyline :: _ => polyline_decode overview_polyline
  end.

(** The [map_url] of a response whose map was saved under [map_id]. *)
Definition map_url_of (map_id : string) : string :=
  "/static/" +:+ str_remove "static/" ("static/carpool_map_" +:+ map_id +:+ ".html").

End Readings.

(** [m] run from trace [tr] returns [a], extending the trace. *)
Definition returns {A} (m : M A) (tr : list Event) (a : A) : Prop :=
  exists calls, m tr = (inr a, tr ++ calls).

(** The echoed fields of an outcome entry are those of passenger [p]. *)
Definition echoes (e : Entry) (p : Passenger) : Prop :=
  e !! "name" = Some (VStr (name p)) /\
  e !! "origin_address" = Some (VStr (address (origin p))) /\
  e !! "destination_address" = Some (VStr (address (destination p))).

(** ** The map a request draws, and the endpoint that serves it *)

(** What a subscript or an arithmetic step of [generate_map] can raise. *)
Inductive RenderError :=
| KeyError (key : string)
| IndexError
| TypeError
| ValueError.

(** A popup is a fixed text, or the f-string of an entry's name and a suffix. *)
Inductive Popup :=
| PlainPopup (text : string)
| NamedPopup (entry_name : Value) (suffix : string).

Record Marker := {
  marker_location : Coord;
  marker_popup : Popup;
  marker_color : string
}.

Record FoliumMap := {
  map_location : Coord;
  zoom_start : Z;
  route_line : list Coord;
  markers : list Marker
}.

(** The float of a list index, as [index * offset] converts it. *)
Definition float_of_index (index : nat) : float :=
  PrimFloat.of_uint63 (Uint63.of_Z (Z.of_nat index)).

(** [offset_coords] *)
Definition offset_coords (coord : Coord) (index : nat) (offset : float) : Coord :=
  ((fst coord + float_of_index index * offset)%float,
   (snd coord + float_of_index index * offset)%float).

(** The default of [offset_coords], which every call site takes. *)
Definition default_offset : float := 0.0003%float.

(** [offset_coords(p[key], index)]: the subscript of the dictionary, then the
    subscripts and sums on its value. *)
Definition entry_offset (p : Entry) (key : string) (index : nat) : RenderError + Coord :=
  match p !! key with
  | None => inl (KeyError key)
  | Some (VCoords c) => inr (offset_coords c index default_offset)
  | Some (VStr "") => inl IndexError
  | Some (VStr _) => inl TypeError
  end.

(** A location [folium] refuses: [Map], [PolyLine] and [Marker] validate the
    locations they are given and raise [ValueError] on one that holds a value
    that is not a number. *)
Definition nan_location (loc : Coord) : bool :=
  PrimFloat.is_nan (fst loc) || PrimFloat.is_nan (snd loc).

(** The two markers of one entry: both offsets are computed, then the popups
    read [p['name']] and each [Marker] validates its location. *)
Definition entry_markers (p : Entry) (index : nat) (status color : string)
  : RenderError + list Marker :=
  match entry_offset p "origin_coords" index with
  | inl e => inl e
  | inr pickup_offset =>
      match entry_offset p "destination_coords" index with
      | inl e => inl e
      | inr dropoff_offset =>
          match p !! "name" with
          | None => inl (KeyError "name")
          | Some n =>
              if nan_location pickup_offset || nan_location dropoff_offset
              then inl ValueError
              else
                inr [ {| marker_location := pickup_offset;
                         marker_popup := NamedPopup n (" Pickup (" +:+ status +:+ ")");
                         marker_color := color |};
                      {| marker_location := dropoff_offset;
                         marker_popup := NamedPopup n (" Dropoff (" +:+ status +:+ ")");
                         marker_color := color |} ]
          end
      end
  end.

(** [for i, p in enumerate(matches)], from index [i] on. *)
Fixpoint matched_markers (i : nat) (matches : list Entry) : RenderError + list Marker :=
  match matches with
  | [] => inr []
  | p :: rest =>
      match entry_markers p i "Matched" "green" with
      | inl e => inl e
      | inr ms =>
          match matched_markers (S i) rest with
          | inl e => inl e
          | inr ms' => inr (ms ++ ms')
          end
      end
  end.

(** [for i, p in enumerate(unmatched)], from index [i] on: an entry is drawn
    when it has both coordinate keys. *)
Fixpoint unmatched_markers (i : nat) (unmatched : list Entry) : RenderError + list Marker :=
  match unmatched with
  | [] => inr []
  | p :: rest =>
      let drawn :=
        match p !! "origin_coords", p !! "destination_coords" with
        | Some _, Some _ => entry_markers p i "Unmatched" "red"
        | _, _ => inr []
        end in
      match drawn with
      | inl e => inl e
      | inr ms =>
          match unmatched_markers (S i) rest with
          | inl e => inl e
          | inr ms' => inr (ms ++ ms')
          end
      end
  end.

(** The map [generate_map] builds before it saves it; [None] when it returns
    early on an empty route.  The map centre, the route line and the driver's
    marker are validated before the entries are drawn, and all three are
    waypoints of the route. *)
Definition build_map (driver_route : list Coord) (matches unmatched : list Entry)
  : RenderError + option FoliumMap :=
  match driver_route with
  | [] => inr None
  | start :: _ =>
      match driver_route !! (length driver_route `div` 2)%nat with
      | None => inl IndexError
      | Some midpoint =>
          if existsb nan_location driver_route then inl ValueError
          else
            match matched_markers 0 matches with
            | inl e => inl e
            | inr ms =>
                match unmatched_markers 0 unmatched with
                | inl e => inl e
                | inr us =>
                    inr (Some {| map_location := midpoint;
                                 zoom_start := 7;
                                 route_line := driver_route;
                                 markers :=
                                   {| marker_location := start;
                                      marker_popup := PlainPopup "Driver Start";
                                      marker_color := "blue" |} :: ms ++ us |})
                end
            end
      end
  end.

(** [get_map], the body of [GET /map/{map_file}], on a disk that maps the
    paths of the readable files to their text. *)
Definition get_map (disk : gmap string string) (map_file : string) : M string :=
  match disk !! ("static/" +:+ map_file) with
  | Some content => ret content
  | None => raise (HTTPException 404 "Map not found")
  end.

(** [root], the body of [GET /]. *)
Definition root : gmap string string :=
  {[ "message" := "Carpooling API is running. Use /docs for API documentation." ]}.

(** ** The calls of the passenger loop *)

Section Calls.

Variable haversine : Coord -> Coord -> float.

(** The calls [resolve] makes with an initialised client. *)
Definition resolve_calls (loc : Location) : list Event :=
  match coordinates loc with
  | Some _ => []
  | None => [EvGeocode (address loc)]
  end.

(** The calls of one iteration. *)
Definition step_calls (client : Client) (driver_route : list Coord) (tolerance_km : float)
    (st : Loop) (p : Passenger) : list Event :=
  if seats st =? 0 then []
  else
    resolve_calls (origin p) ++ resolve_calls (destination p) ++
    match resolved client (origin p), resolved client (destination p) with
    | Some oc, Some dc =>
        near_calls haversine oc driver_route tolerance_km ++
        near_calls haversine dc driver_route tolerance_km
    | _, _ => []
    end.

(** The calls of the whole loop. *)
Fixpoint loop_calls (client : Client) (driver_route : list Coord) (tolerance_km : float)
    (st : Loop) (ps : list Passenger) : list Event :=
  match ps with
  | [] => []
  | p :: rest =>
      step_calls client driver_route tolerance_km st p ++
      loop_calls client driver_route tolerance_km
        (step haversine client driver_route tolerance_km st p) rest
  end.

End Calls.

(** An event is a call to the geocoder. *)
Definition is_geocode (e : Event) : bool :=
  match e with EvGeocode _ => true | _ => false end.

(** An event is a distance computation. *)
Definition is_haversine (e : Event) : bool :=
  match e with EvHaversine _ _ => true | _ => false end.

(** The text of an entry's reason, if it has one. *)
Definition reason_of (e : Entry) : option string :=
  match e !! "reason" with
  | Some (VStr r) => Some r
  | _ => None
  end.

(** A string without the letter s: such is the text of a [uuid4], made of
    hexadecimal digits and dashes. *)
Fixpoint no_s (s : string) : bool :=
  match s with
  | EmptyString => true
  | String c s' => negb (String.eqb (String c "") "s") && no_s s'
  end.

(** A passenger who sends both coordinates with the request. *)
Definition supplies_coordinates (p : Passenger) : Prop :=
  is_Some (coordinates (origin p)) /\ is_Some (coordinates (destination p)).

(** A matched entry: no reason, both coordinates. *)
Definition matched_shape (e : Entry) : Prop :=
  reason_of e = None /\
  exists oc dc,
    e !! "origin_coords" = Some (VCoords oc) /\
    e !! "destination_coords" = Some (VCoords dc).

(** An unmatched entry: one of the three reasons, and both coordinates with
    the route reason, none with the other two. *)
Definition unmatched_shape (e : Entry) : Prop :=
  (reason_of e = Some "No seats available" /\
   e !! "origin_coords" = None /\ e !! "destination_coords" = None)
  \/
  (reason_of e = Some "Could not geocode addresses" /\
   e !! "origin_coords" = None /\ e !! "destination_coords" = None)
  \/
  (reason_of e = Some "Not on driver's route" /\
   exists oc dc,
     e !! "origin_coords" = Some (VCoords oc) /\
     e !! "destination_coords" = Some (VCoords dc)).

(** An entry [generate_map] can draw. *)
Definition drawable (e : Entry) : Prop :=
  is_Some (e !! "name") /\
  exists oc dc,
    e !! "origin_coords" = Some (VCoords oc) /\
    e !! "destination_coords" = Some (VCoords dc).

(** An entry without one of the coordinate keys. *)
Definition lacks_coordinates (e : Entry) : Prop :=
  e !! "origin_coords" = None \/ e !! "destination_coords" = None.

(** Among the entries drawn from index [i] on, one has a coordinate whose
    shifted location is not a number. *)
Definition has_nan_marker (i : nat) (es : list Entry) : Prop :=
  exists k e key c,
    es !! k = Some e /\
    e !! key = Some (VCoords c) /\
    nan_location (offset_coords c (i + k) default_offset) = true.

(** An entry has the route reason. *)
Definition has_route_reason (e : Entry) : bool :=
  match reason_of e with
  | Some r => String.eqb r "Not on driver's route"
  | None => false
  end.

(** ** Sample data for the examples *)

(** On the equator the great-circle distance is the mean earth radius times
    the difference in longitude, 111.195 km per degree; the examples keep to
    points there and take this in place of the library's [haversine]. *)
Definition equator_km (point1 point2 : Coord) : float :=
  (111.195 * (abs (fst point1 - fst point2) + abs (snd point1 - snd point2)))%float.

(** [polyline.decode] of the one polyline the sample provider returns. *)
Definition sample_decode (points : string) : list Coord :=
  [(0, 0); (0, 1); (0, 2)]%float.

Definition sample_client : Client :=
  {| directions := fun o d => if String.eqb o "nowhere" then [] else ["_polyline_"];
     geocode := fun addr =>
       if String.eqb addr "start" then [(0, 0.0001)%float]
       else if String.eqb addr "end" then [(0, 1.0001)%float]
       else [] |}.

Definition sample_driver (n : Z) : Driver :=
  {| driver_origin := "A"; driver_destination := "B"; seats_available := n |}.

Definition passenger_A : Passenger :=
  {| name := "A";
     origin := {| address := "a1"; coordinates := Some (0, 0.0001)%float |};
     destination := {| address := "a2"; coordinates := Some (0, 1.0001)%float |} |}.

Definition passenger_B : Passenger :=
  {| name := "B";
     origin := {| address := "b1"; coordinates := Some (0, 0.0002)%float |};
     destination := {| address := "b2"; coordinates := Some (0, 2.0002)%float |} |}.

(** Origin to be geocoded, and unknown to the provider. *)
Definition passenger_C : Passenger :=
  {| name := "C";
     origin := {| address := "unknown"; coordinates := None |};
     destination := {| address := "end"; coordinates := None |} |}.

(** Destination far from every waypoint. *)
Definition passenger_D : Passenger :=
  {| name := "D";
     origin := {| address := "d1"; coordinates := Some (0, 0)%float |};
     destination := {| address := "d2"; coordinates := Some (0, 5)%float |} |}.

(** Both endpoints on waypoints. *)
Definition passenger_E : Passenger :=
  {| name := "E";
     origin := {| address := "e1"; coordinates := Some (0, 0)%float |};
     destination := {| address := "e2"; coordinates := Some (0, 2)%float |} |}.

Definition sample_request (n : Z) (ps : list Passenger) (tol : float) : MatchRequest :=
  {| driver := sample_driver n; passengers := ps; tolerance_km := tol |}.

(** Two identifiers as [str(uuid.uuid4())] draws them. *)
Definition uuid_a : string := "1b9d6bcd-bbfd-4b2d-9b5d-ab8dfbbd4bed".
Definition uuid_b : string := "7c9e6679-7425-40de-944b-e07fc1f90ae7".

(** A request whose driver has no route. *)
Definition nowhere_request : MatchRequest :=
  {| driver := {| driver_origin := "nowhere"; driver_destination := "B";
                  seats_available := 2 |};
     passengers := [passenger_A];
     tolerance_km := 2 |}.

(** The answer to one seat, passengers A then B, tolerance 2 km, and the
    trace of the call. *)
Definition response_AB : MatchResponse :=
  {| matched_passengers :=
       [matched_entry passenger_A (0, 0.0001)%float (0, 1.0001)%float];
     unmatched_passengers := [no_seats_entry passenger_B];
     seats_remaining := 0;
     map_url := Some "/static/carpool_map_1b9d6bcd-bbfd-4b2d-9b5d-ab8dfbbd4bed.html" |}.

Definition trace_AB : list Event :=
  [ EvDirections "A" "B";
    EvHaversine (0, 0.0001)%float (0, 0)%float;
    EvHaversine (0, 1.0001)%float (0, 0)%float;
    EvHaversine (0, 1.0001)%float (0, 1)%float;
    EvSaveMap "static/carpool_map_1b9d6bcd-bbfd-4b2d-9b5d-ab8dfbbd4bed.html" ].

(** The answers to one seat and passenger E alone, with tolerance 0 and with
    tolerance -1. *)
Definition response_E_zero (map_id : string) : MatchResponse :=
  {| matched_passengers := [matched_entry passenger_E (0, 0)%float (0, 2)%float];
     unmatched_passengers := [];
     seats_remaining := 0;
     map_url := Some ("/static/carpool_map_" +:+ map_id +:+ ".html") |}.


Definition trace_E_zero (map_id : string) : list Event :=
  [ EvDirections "A" "B";
    EvHaversine (0, 0)%float (0, 0)%float;
    EvHaversine (0, 2)%float (0, 0)%float;
    EvHaversine (0, 2)%float (0, 1)%float;
    EvHaversine (0, 2)%float (0, 2)%float;
    EvSaveMap ("static/carpool_map_" +:+ map_id +:+ ".html") ].


(** A loop state with five seats left and one with none. *)
Definition five_seats : Loop := {| seats := 5; matched := []; unmatched := [] |}.
Definition no_seats : Loop := {| seats := 0; matched := []; unmatched := [] |}.

(** The answers to one seat and passenger A alone, and to five seats and
    passengers A then D. *)
Definition response_A : MatchResponse :=
  {| matched_passengers :=
       [matched_entry passenger_A (0, 0.0001)%float (0, 1.0001)%float];
     unmatched_passengers := [];
     seats_remaining := 0;
     map_url := Some "/static/carpool_map_1b9d6bcd-bbfd-4b2d-9b5d-ab8dfbbd4bed.html" |}.

Definition response_AD : MatchResponse :=
  {| matched_passengers :=
       [matched_entry passenger_A (0, 0.0001)%float (0, 1.0001)%float];
     unmatched_passengers := [not_on_route_entry passenger_D (0, 0)%float (0, 5)%float];
     seats_remaining := 4;
     map_url := Some "/static/carpool_map_1b9d6bcd-bbfd-4b2d-9b5d-ab8dfbbd4bed.html" |}.

Definition trace_AD : list Event :=
  [ EvDirections "A" "B";
    EvHaversine (0, 0.0001)%float (0, 0)%float;
    EvHaversine (0, 1.0001)%float (0, 0)%float;
    EvHaversine (0, 1.0001)%float (0, 1)%float;
    EvHaversine (0, 0)%float (0, 0)%float;
    EvHaversine (0, 5)%float (0, 0)%float;
    EvHaversine (0, 5)%float (0, 1)%float;
    EvHaversine (0, 5)%float (0, 2)%float;
    EvSaveMap "static/carpool_map_1b9d6bcd-bbfd-4b2d-9b5d-ab8dfbbd4bed.html" ].

(** A passenger whose origin latitude is not a number, and the lists the loop
    builds for that passenger alone with tolerance 2 km. *)
Definition passenger_N : Passenger :=
  {| name := "N";
     origin := {| address := "n1"; coordinates := Some (PrimFloat.nan, 0%float) |};
     destination := {| address := "n2"; coordinates := Some (0, 2)%float |} |}.

Definition response_N : MatchResponse :=
  {| matched_passengers := [];
     unmatched_passengers :=
       [not_on_route_entry passenger_N (PrimFloat.nan, 0%float) (0, 2)%float];
     seats_remaining := 1;
     map_url := Some "/static/carpool_map_1b9d6bcd-bbfd-4b2d-9b5d-ab8dfbbd4bed.html" |}.

(** The map drawn for the answer to passengers A then B. *)
Definition map_AB : FoliumMap :=
  {| map_location := (0, 1)%float;
     zoom_start := 7;
     route_line := [(0, 0); (0, 1); (0, 2)]%float;
     markers :=
       [ {| marker_location := (0, 0)%float;
            marker_popup := PlainPopup "Driver Start";
            marker_color := "blue" |};
         {| marker_location := offset_coords (0, 0.0001)%float 0 default_offset;
            marker_popup := NamedPopup (VStr "A") " Pickup (Matched)";
            marker_color := "green" |};
         {| marker_location := offset_coords (0, 1.0001)%float 0 default_offset;
            marker_popup := NamedPopup (VStr "A") " Dropoff (Matched)";
            marker_color := "green" |} ] |}.

(** ** Properties *)

Section Properties.

Variable haversine : Coord -> Coord -> float.
Variable polyline_decode : string -> list Coord.

(** *** Running the monad *)

Lemma returns_ret {A} (a : A) tr : returns (ret a) tr a.
Proof. exists []. unfold ret. by rewrite app_nil_r. Qed.

Lemma returns_bind {A B} (m : M A) (k : A -> M B) tr a b :
  returns m tr a -> (forall tr', returns (k a) tr' b) -> returns (bind m k) tr b.
Proof.
  intros [c1 H1] Hk. destruct (Hk (tr ++ c1)) as [c2 H2].
  exists (c1 ++ c2). unfold bind. rewrite H1, H2. by rewrite app_assoc.
Qed.

Lemma returns_emit e tr : returns (emit e) tr tt.
Proof. by exists [e]. Qed.

Lemma returns_inj {A} (m : M A) tr a b : returns m tr a -> returns m tr b -> a = b.
Proof. intros [c1 H1] [c2 H2]. congruence. Qed.

(** *** The proximity test *)

Lemma any_near_run x route tol tr :
  any_near haversine x route tol tr
  = (inr (near haversine x route tol), tr ++ near_calls haversine x route tol).
Proof.
  revert tr. induction route as [|w route IH]; intros tr; simpl.
  - unfold ret. by rewrite app_nil_r.
  - unfold bind, call_haversine, emit, ret; simpl.
    destruct (PrimFloat.leb (haversine x w) tol); simpl.
    + done.
    + rewrite IH. by rewrite <- app_assoc.
Qed.

Lemma is_passenger_match_run route o d tol tr :
  is_passenger_match haversine route o d tol tr
  = (inr (near haversine o route tol && near haversine d route tol),
     tr ++ near_calls haversine o route tol ++ near_calls haversine d route tol).
Proof.
  unfold is_passenger_match, bind. rewrite !any_near_run.
  unfold ret. by rewrite <- app_assoc.
Qed.

Lemma near_true x route tol :
  near haversine x route tol = true <->
  exists w, w ∈ route /\ PrimFloat.leb (haversine x w) tol = true.
Proof.
  unfold near. rewrite existsb_exists.
  split; intros [w [Hin Hle]]; exists w; split; auto; by apply list_elem_of_In.
Qed.

(** IEEE equality entails IEEE [<=]. *)
Lemma float_eqb_leb (x y : float) :
  PrimFloat.eqb x y = true -> PrimFloat.leb x y = true.
Proof.
  rewrite FloatAxioms.eqb_spec, FloatAxioms.leb_spec.
  unfold SpecFloat.SFeqb, SpecFloat.SFleb.
  by destruct (SpecFloat.SFcompare _ _) as [[| |]|].
Qed.

(** C1: the proximity test returns true exactly when some waypoint is within
    the tolerance of the origin and some waypoint, chosen independently, is
    within the tolerance of the destination; the comparison is inclusive, so
    endpoints at a distance equal to the tolerance are near. *)
Theorem proximity_test_iff (route : list Coord) (o d : Coord) (tol : float)
    (tr : list Event) :
  exists is_match : bool,
    returns (is_passenger_match haversine route o d tol) tr is_match /\
    (is_match = true <->
       (exists w, w ∈ route /\ PrimFloat.leb (haversine o w) tol = true) /\
       (exists w, w ∈ route /\ PrimFloat.leb (haversine d w) tol = true)) /\
    (forall w1 w2, w1 ∈ route -> w2 ∈ route ->
       PrimFloat.eqb (haversine o w1) tol = true ->
       PrimFloat.eqb (haversine d w2) tol = true ->
       is_match = true).
Proof.
  exists (near haversine o route tol && near haversine d route tol).
  split; [|split].
  - eexists. apply is_passenger_match_run.
  - rewrite andb_true_iff, !near_true. tauto.
  - intros w1 w2 H1 H2 E1 E2. rewrite andb_true_iff, !near_true.
    split; eauto using float_eqb_leb.
Qed.

(** *** Seat exhaustion *)

(** C3: with no seat left the iteration appends the no-seats entry and leaves
    the trace as it was: no geocoding call and no distance computation is made
    for the passenger, whatever the client, the route and the tolerance. *)
Theorem no_seats_short_circuit (gmaps : option Client) (route : list Coord)
    (tol : float) (st : Loop) (p : Passenger) (tr : list Event) :
  seats st = 0 ->
  loop_body haversine gmaps route tol st p tr
  = (inr {| seats := 0; matched := matched st;
            unmatched := unmatched st ++ [no_seats_entry p] |}, tr)
  /\ no_seats_entry p !! "reason" = Some (VStr "No seats available")
  /\ no_seats_entry p !! "origin_coords" = None
  /\ no_seats_entry p !! "destination_coords" = None.
Proof.
  intros H0. unfold loop_body. rewrite H0. simpl. done.
Qed.

(** *** The passenger loop *)

Lemma resolve_returns client loc tr :
  returns (resolve (Some client) loc) tr (resolved client loc).
Proof.
  unfold resolve, resolved. destruct (coordinates loc) as [c|].
  - apply returns_ret.
  - unfold geocode_address. eapply returns_bind; [apply returns_emit|].
    intros tr'. destruct (geocode client (address loc)); apply returns_ret.
Qed.

Lemma is_passenger_match_returns route o d tol tr :
  returns (is_passenger_match haversine route o d tol) tr
    (near haversine o route tol && near haversine d route tol).
Proof. eexists. apply is_passenger_match_run. Qed.

Lemma loop_body_returns client route tol st p tr :
  returns (loop_body haversine (Some client) route tol st p) tr
    (step haversine client route tol st p).
Proof.
  unfold loop_body, step, on_route, seated_entry.
  destruct (seats st =? 0); [apply returns_ret|].
  eapply returns_bind; [apply resolve_returns|]. intros tr1.
  eapply returns_bind; [apply resolve_returns|]. intros tr2.
  destruct (resolved client (origin p)) as [oc|]; [|apply returns_ret].
  destruct (resolved client (destination p)) as [dc|]; [|apply returns_ret].
  eapply returns_bind; [apply is_passenger_match_returns|]. intros tr3.
  destruct (near haversine oc route tol && near haversine dc route tol);
    apply returns_ret.
Qed.

Lemma for_each_returns client route tol ps st tr :
  returns (for_each (loop_body haversine (Some client) route tol) st ps) tr
    (fold_left (step haversine client route tol) ps st).
Proof.
  revert st tr. induction ps as [|p ps IH]; intros st tr; simpl.
  - apply returns_ret.
  - eapply returns_bind; [apply loop_body_returns|]. intros tr'. apply IH.
Qed.

Lemma returns_eq {A} (m : M A) tr a r tr' :
  returns m tr a -> m tr = (inr r, tr') -> r = a.
Proof. intros [c H] E. congruence. Qed.

Lemma get_route_coords_returns client d tr :
  get_route_coords polyline_decode (Some client) (driver_origin d) (driver_destination d) tr
  = (inr (route_of polyline_decode client d),
     tr ++ [EvDirections (driver_origin d) (driver_destination d)]).
Proof.
  unfold get_route_coords, route_of, bind, emit, ret.
  by destruct (directions client _ _).
Qed.

(** The response of a request whose route is found. *)
Lemma match_passengers_returns client uuid4 req tr :
  route_of polyline_decode client (driver req) <> [] ->
  let st := fold_left
              (step haversine client (route_of polyline_decode client (driver req))
                 (tolerance_km req))
              (passengers req) (initial req) in
  returns (match_passengers haversine polyline_decode (Some client) uuid4 req) tr
    {| matched_passengers := matched st;
       unmatched_passengers := unmatched st;
       seats_remaining := seats st;
       map_url := Some (map_url_of uuid4) |}.
Proof.
  intros Hne st. unfold match_passengers.
  eapply returns_bind; [eexists; apply get_route_coords_returns|]. intros tr1.
  destruct (route_of polyline_decode client (driver req)) as [|w route] eqn:Hr;
    [done|].
  eapply returns_bind; [apply for_each_returns|]. intros tr2.
  eapply returns_bind.
  { unfold generate_map. eapply returns_bind; [apply returns_emit|].
    intros tr3. apply returns_ret. }
  intros tr3. apply returns_ret.
Qed.

(** A request that is answered had an initialised client and a route. *)
Lemma match_passengers_inv gmaps uuid4 req tr resp tr' :
  match_passengers haversine polyline_decode gmaps uuid4 req tr = (inr resp, tr') ->
  exists client,
    gmaps = Some client /\
    route_of polyline_decode client (driver req) <> [] /\
    (let st := fold_left
                 (step haversine client (route_of polyline_decode client (driver req))
                    (tolerance_km req))
                 (passengers req) (initial req) in
     resp = {| matched_passengers := matched st;
               unmatched_passengers := unmatched st;
               seats_remaining := seats st;
               map_url := Some (map_url_of uuid4) |}).
Proof.
  intros H. destruct gmaps as [client|]; [|discriminate].
  exists client. split; [done|].
  assert (Hne : route_of polyline_decode client (driver req) <> []).
  { intros E. unfold match_passengers, bind in H.
    rewrite get_route_coords_returns, E in H. discriminate. }
  split; [done|]. intros st.
  eapply returns_eq; [|exact H]. by apply match_passengers_returns.
Qed.

Lemma post_match_inv gmaps uuid4 req tr resp tr' :
  post_match haversine polyline_decode gmaps uuid4 req tr = (inr resp, tr') ->
  0 < seats_available (driver req) /\
  match_passengers haversine polyline_decode gmaps uuid4 req tr = (inr resp, tr').
Proof.
  unfold post_match, validate, bind.
  destruct (0 <? seats_available (driver req)) eqn:E; [|discriminate].
  intros H. split; [lia | exact H].
Qed.

(** *** Invariants of the loop *)

Section Loop.

Variable client : Client.
Variable route : list Coord.
Variable tol : float.

Local Abbreviation stepf := (step haversine client route tol).
Local Abbreviation fits := (on_route haversine client route tol).
Local Abbreviation seated := (seated_entry haversine client route tol).

(** An iteration either seats the passenger, taking one seat, or appends one
    entry to the unmatched list and leaves the counter alone. *)
Lemma step_cases st p :
  (seats st <> 0 /\ fits p = true /\
   seats (stepf st p) = seats st - 1 /\
   matched (stepf st p) = matched st ++ [seated p] /\
   unmatched (stepf st p) = unmatched st)
  \/
  (seats (stepf st p) = seats st /\
   matched (stepf st p) = matched st /\
   unmatched (stepf st p)
   = unmatched st ++ [if seats st =? 0 then no_seats_entry p else seated p] /\
   (seats st = 0 \/ fits p = false)).
Proof.
  unfold step. destruct (seats st =? 0) eqn:E0.
  - right. simpl. repeat split; auto. left. lia.
  - destruct (fits p) eqn:Ef; [left | right]; simpl; repeat split; auto. lia.
Qed.

Lemma fold_step_app ps1 ps2 st :
  fold_left stepf (ps1 ++ ps2) st = fold_left stepf ps2 (fold_left stepf ps1 st).
Proof. apply fold_left_app. Qed.

Lemma fold_total_entries ps st :
  (length (matched (fold_left stepf ps st)) + length (unmatched (fold_left stepf ps st))
   = length (matched st) + length (unmatched st) + length ps)%nat.
Proof.
  revert st. induction ps as [|p ps IH]; intros st; simpl; [lia|].
  rewrite IH.
  destruct (step_cases st p) as [(_ & _ & _ & Hm & Hu) | (_ & Hm & Hu & _)];
    rewrite Hm, Hu, length_app; simpl; lia.
Qed.

Lemma fold_seats_matched ps st :
  seats (fold_left stepf ps st) + Z.of_nat (length (matched (fold_left stepf ps st)))
  = seats st + Z.of_nat (length (matched st)).
Proof.
  revert st. induction ps as [|p ps IH]; intros st; simpl; [lia|].
  rewrite IH.
  destruct (step_cases st p) as [(_ & _ & Hs & Hm & _) | (Hs & Hm & _)];
    rewrite Hs, Hm; [rewrite length_app; simpl|]; lia.
Qed.

Lemma step_seats_nonneg st p : 0 <= seats st -> 0 <= seats (stepf st p).
Proof.
  intros H. destruct (step_cases st p) as [(Hne & _ & Hs & _) | (Hs & _)]; lia.
Qed.

Lemma fold_seats_nonneg ps st :
  0 <= seats st -> 0 <= seats (fold_left stepf ps st).
Proof.
  revert st. induction ps as [|p ps IH]; intros st H; simpl; [done|].
  by apply IH, step_seats_nonneg.
Qed.

(** Once the counter is 0 every remaining passenger gets the no-seats entry. *)
Lemma fold_no_seats ps st :
  seats st = 0 ->
  fold_left stepf ps st
  = {| seats := 0; matched := matched st;
       unmatched := unmatched st ++ map no_seats_entry ps |}.
Proof.
  revert st. induction ps as [|p ps IH]; intros st H; simpl.
  - rewrite app_nil_r. destruct st; simpl in *; by subst.
  - rewrite IH; unfold step; rewrite H; simpl; [|done].
    by rewrite <- app_assoc.
Qed.

(** The matched list grows by the entries of the first passengers that fit,
    as many as there are seats. *)
Lemma fold_matched_take ps st :
  0 <= seats st ->
  matched (fold_left stepf ps st)
  = matched st ++ map seated (take (Z.to_nat (seats st)) (List.filter fits ps)).
Proof.
  revert st. induction ps as [|p ps IH]; intros st H; simpl.
  - by rewrite take_nil, app_nil_r.
  - rewrite IH by by apply step_seats_nonneg.
    destruct (step_cases st p) as [(Hne & Hf & Hs & Hm & _) | (Hs & Hm & _ & [H0|Hf])].
    + rewrite Hs, Hm, Hf.
      replace (Z.to_nat (seats st)) with (S (Z.to_nat (seats st - 1))) by lia.
      simpl. by rewrite <- app_assoc.
    + rewrite Hs, Hm, H0. simpl. by destruct (fits p).
    + by rewrite Hs, Hm, Hf.
Qed.

Lemma fold_seats_left ps st :
  0 <= seats st ->
  seats (fold_left stepf ps st)
  = Z.max 0 (seats st - Z.of_nat (length (List.filter fits ps))).
Proof.
  intros H. pose proof (fold_seats_matched ps st) as Hsm.
  rewrite (fold_matched_take ps st H) in Hsm.
  rewrite length_app, length_map, length_take in Hsm. lia.
Qed.

End Loop.

(** *** Exhaustive classification and seat accounting *)

(** C4: a request that is answered has one outcome entry for each passenger:
    the matched and the unmatched lists together are as long as the input. *)
Theorem every_passenger_classified (gmaps : option Client) (uuid4 : string)
    (req : MatchRequest) (tr tr' : list Event) (resp : MatchResponse) :
  match_passengers haversine polyline_decode gmaps uuid4 req tr = (inr resp, tr') ->
  (length (matched_passengers resp) + length (unmatched_passengers resp)
   = length (passengers req))%nat.
Proof.
  intros H. apply match_passengers_inv in H as (client & -> & _ & ->).
  simpl. by rewrite fold_total_entries.
Qed.

(** C5: for a request that passes validation and is answered, the reported
    seat count is the initial count minus the number of matched passengers and
    is not negative; the same holds of the loop state after every prefix of
    the passenger list; and an iteration either takes exactly one seat and
    appends one matched entry, or leaves the counter and the matched list as
    they were. *)
Theorem seat_accounting (gmaps : option Client) (uuid4 : string)
    (req : MatchRequest) (tr tr' : list Event) (resp : MatchResponse) :
  post_match haversine polyline_decode gmaps uuid4 req tr = (inr resp, tr') ->
  seats_remaining resp
  = seats_available (driver req) - Z.of_nat (length (matched_passengers resp))
  /\ 0 <= seats_remaining resp
  /\ (forall route pre post st tr0 tr1,
        passengers req = pre ++ post ->
        for_each (loop_body haversine gmaps route (tolerance_km req)) (initial req) pre tr0
        = (inr st, tr1) ->
        0 <= seats st /\
        seats st = seats_available (driver req) - Z.of_nat (length (matched st)))
  /\ (forall route st p st' tr0 tr1,
        loop_body haversine gmaps route (tolerance_km req) st p tr0 = (inr st', tr1) ->
        (seats st' = seats st - 1 /\ exists e, matched st' = matched st ++ [e]) \/
        (seats st' = seats st /\ matched st' = matched st)).
Proof.
  intros H. apply post_match_inv in H as [Hpos H].
  apply match_passengers_inv in H as (client & -> & _ & ->). simpl.
  set (route0 := route_of polyline_decode client (driver req)).
  assert (Hinit : 0 <= seats (initial req)) by (simpl; lia).
  pose proof (fold_seats_matched client route0 (tolerance_km req)
                (passengers req) (initial req)) as Hsm.
  simpl in Hsm. split; [lia|]. split; [by apply fold_seats_nonneg|]. split.
  - intros route pre post st tr0 tr1 _ Hpre.
    eapply returns_eq in Hpre; [|apply for_each_returns]. subst st.
    pose proof (fold_seats_matched client route (tolerance_km req) pre (initial req))
      as Hsm'.
    simpl in Hsm'. split; [by apply fold_seats_nonneg | lia].
  - intros route st p st' tr0 tr1 Hb.
    eapply returns_eq in Hb; [|apply loop_body_returns]. subst st'.
    destruct (step_cases client route (tolerance_km req) st p)
      as [(_ & _ & Hs & Hm & _) | (Hs & Hm & _)]; eauto.
Qed.

(** *** Greedy allocation in input order *)

Lemma fits_seated client route tol p :
  on_route haversine client route tol p = true ->
  exists oc dc,
    resolved client (origin p) = Some oc /\
    resolved client (destination p) = Some dc /\
    seated_entry haversine client route tol p = matched_entry p oc dc.
Proof.
  unfold on_route, seated_entry.
  destruct (resolved client (origin p)) as [oc|]; [|done].
  destruct (resolved client (destination p)) as [dc|]; [|done].
  intros ->. eauto.
Qed.

Lemma Forall2_map_same {A B} (R : B -> A -> Prop) (g : A -> B) (l : list A) :
  Forall (fun x => R (g x) x) l -> Forall2 R (map g l) l.
Proof. induction 1; simpl; by constructor. Qed.

Lemma Forall_filter_true {A} (f : A -> bool) (l : list A) :
  Forall (fun x => f x = true) (List.filter f l).
Proof.
  induction l as [|x l IH]; simpl; [constructor|].
  destruct (f x) eqn:E; [by constructor | done].
Qed.

(** C2: with [k] seats and more than [k] passengers that resolve and pass the
    proximity test, the matched list holds the entries of exactly the first
    [k] of them, in input order, no seat remains, and every such passenger
    that comes after those [k] has the no-seats entry in the unmatched list,
    at the position its place in the input gives it. *)
Theorem greedy_first_come (client : Client) (uuid4 : string)
    (req : MatchRequest) (tr tr' : list Event) (resp : MatchResponse) :
  let route := route_of polyline_decode client (driver req) in
  let fits := on_route haversine client route (tolerance_km req) in
  let k := seats_available (driver req) in
  post_match haversine polyline_decode (Some client) uuid4 req tr = (inr resp, tr') ->
  k < Z.of_nat (length (List.filter fits (passengers req))) ->
  Forall2
    (fun e p => exists oc dc,
       resolved client (origin p) = Some oc /\
       resolved client (destination p) = Some dc /\
       e = matched_entry p oc dc)
    (matched_passengers resp)
    (take (Z.to_nat k) (List.filter fits (passengers req)))
  /\ length (matched_passengers resp) = Z.to_nat k
  /\ seats_remaining resp = 0
  /\ (forall pre p post,
        passengers req = pre ++ p :: post ->
        fits p = true ->
        k <= Z.of_nat (length (List.filter fits pre)) ->
        unmatched_passengers resp !! (length pre - Z.to_nat k)%nat
        = Some (no_seats_entry p)
        /\ no_seats_entry p !! "reason" = Some (VStr "No seats available")).
Proof.
  intros route fits k H Hmore.
  apply post_match_inv in H as [Hpos H].
  apply match_passengers_inv in H as (c & [= <-] & _ & ->). simpl.
  fold route. fold fits.
  assert (Hinit : 0 <= seats (initial req)) by (simpl; lia).
  rewrite (fold_matched_take client route (tolerance_km req) _ _ Hinit). simpl.
  fold fits k. split; [|split; [|split]].
  - apply Forall2_map_same, Forall_take.
    eapply Forall_impl; [apply Forall_filter_true|].
    intros p Hp. by apply fits_seated.
  - rewrite length_map, length_take. lia.
  - rewrite (fold_seats_left client route (tolerance_km req) _ _ Hinit). simpl.
    fold fits k. lia.
  - intros pre p post Hsplit Hfits Hfull. split; [|done].
    rewrite Hsplit, fold_step_app.
    set (st1 := fold_left _ pre (initial req)).
    assert (Hs1 : seats st1 = 0).
    { unfold st1. rewrite fold_seats_left by done. simpl. fold fits k. lia. }
    pose proof (fold_seats_matched client route (tolerance_km req) pre (initial req))
      as Hsm.
    pose proof (fold_total_entries client route (tolerance_km req) pre (initial req))
      as Hte.
    fold st1 in Hsm, Hte. simpl in Hsm, Hte.
    rewrite (fold_no_seats client route (tolerance_km req) _ st1 Hs1). simpl.
    apply list_lookup_middle. fold k in Hsm. lia.
Qed.

(** *** Order of the output lists *)

Lemma no_seats_echoes p : echoes (no_seats_entry p) p.
Proof. done. Qed.

Lemma seated_echoes client route tol p :
  echoes (seated_entry haversine client route tol p) p.
Proof.
  unfold seated_entry.
  destruct (resolved client (origin p)) as [oc|]; [|done].
  destruct (resolved client (destination p)) as [dc|]; [|done].
  by destruct (near haversine oc route tol && near haversine dc route tol).
Qed.

Lemma fold_sublists client route tol ps st :
  exists ps_m ps_u ms us,
    matched (fold_left (step haversine client route tol) ps st) = matched st ++ ms /\
    unmatched (fold_left (step haversine client route tol) ps st) = unmatched st ++ us /\
    sublist ps_m ps /\ sublist ps_u ps /\
    Forall2 echoes ms ps_m /\ Forall2 echoes us ps_u.
Proof.
  revert st. induction ps as [|p ps IH]; intros st; simpl.
  - exists [], [], [], []. rewrite !app_nil_r. repeat split; constructor.
  - destruct (IH (step haversine client route tol st p))
      as (ps_m & ps_u & ms & us & Hm & Hu & Sm & Su & Fm & Fu).
    destruct (step_cases client route tol st p)
      as [(_ & _ & _ & Em & Eu) | (_ & Em & Eu & _)];
      rewrite Em, Eu in *.
    + exists (p :: ps_m), ps_u, (seated_entry haversine client route tol p :: ms), us.
      rewrite Hm, Hu, <- app_assoc. repeat split; auto.
      * by apply sublist_skip.
      * by apply sublist_cons.
      * constructor; [apply seated_echoes | done].
    + exists ps_m, (p :: ps_u), ms.
      eexists (_ :: us).
      rewrite Hm, Hu, <- app_assoc. repeat split; auto.
      * by apply sublist_cons.
      * by apply sublist_skip.
      * constructor; [|done].
        destruct (seats st =? 0); [apply no_seats_echoes | apply seated_echoes].
Qed.

(** C10: the matched list and the unmatched list of a response each echo,
    entry by entry and in the same order, a subsequence of the input
    passenger list. *)
Theorem outputs_keep_input_order (gmaps : option Client) (uuid4 : string)
    (req : MatchRequest) (tr tr' : list Event) (resp : MatchResponse) :
  match_passengers haversine polyline_decode gmaps uuid4 req tr = (inr resp, tr') ->
  exists ps_m ps_u : list Passenger,
    sublist ps_m (passengers req) /\
    sublist ps_u (passengers req) /\
    Forall2 echoes (matched_passengers resp) ps_m /\
    Forall2 echoes (unmatched_passengers resp) ps_u.
Proof.
  intros H. apply match_passengers_inv in H as (client & -> & _ & ->). simpl.
  destruct (fold_sublists client (route_of polyline_decode client (driver req))
              (tolerance_km req) (passengers req) (initial req))
    as (ps_m & ps_u & ms & us & Hm & Hu & Sm & Su & Fm & Fu).
  simpl in Hm, Hu. rewrite Hm, Hu. eauto 10.
Qed.

(** *** Unmatched reasons *)

(** C6: with a seat left, a passenger one of whose endpoints does not resolve
    is appended to the unmatched list with the geocoding reason and neither
    coordinate key; a passenger whose endpoints both resolve and who fails the
    proximity test is appended with the not-on-route reason and both resolved
    coordinates.  In both cases the counter and the matched list are kept. *)
Theorem unmatched_reason_and_coordinates (client : Client) (route : list Coord)
    (tol : float) (st : Loop) (p : Passenger) (tr : list Event) :
  seats st <> 0 ->
  (resolved client (origin p) = None \/ resolved client (destination p) = None ->
   returns (loop_body haversine (Some client) route tol st p) tr
     {| seats := seats st; matched := matched st;
        unmatched := unmatched st ++ [geocode_failed_entry p] |} /\
   geocode_failed_entry p !! "reason" = Some (VStr "Could not geocode addresses") /\
   geocode_failed_entry p !! "origin_coords" = None /\
   geocode_failed_entry p !! "destination_coords" = None)
  /\
  (forall oc dc,
     resolved client (origin p) = Some oc ->
     resolved client (destination p) = Some dc ->
     returns (is_passenger_match haversine route oc dc tol) [] false ->
     returns (loop_body haversine (Some client) route tol st p) tr
       {| seats := seats st; matched := matched st;
          unmatched := unmatched st ++ [not_on_route_entry p oc dc] |} /\
     not_on_route_entry p oc dc !! "reason" = Some (VStr "Not on driver's route") /\
     not_on_route_entry p oc dc !! "origin_coords" = Some (VCoords oc) /\
     not_on_route_entry p oc dc !! "destination_coords" = Some (VCoords dc)).
Proof.
  intros Hne.
  pose proof (loop_body_returns client route tol st p tr) as Hr.
  unfold step, on_route, seated_entry in Hr.
  destruct (seats st =? 0) eqn:E; [lia|].
  split.
  - intros Hnone. split; [|done].
    destruct Hnone as [Ho | Hd].
    + by rewrite Ho in Hr.
    + rewrite Hd in Hr. by destruct (resolved client (origin p)).
  - intros oc dc Ho Hd Hfail. split; [|done].
    eapply returns_inj in Hfail; [|apply is_passenger_match_returns].
    by rewrite Ho, Hd, Hfail in Hr.
Qed.

(** *** Request-level failures *)

(** C7: when the route resolver returns the empty route the handler raises
    the 404 route error straight after the directions call; the trace gains
    that call alone, so no passenger is geocoded or measured, and no response
    is produced.  A validated request fails in the same way. *)
Theorem empty_route_is_request_failure (gmaps : option Client) (uuid4 : string)
    (req : MatchRequest) (tr tr1 : list Event) :
  get_route_coords polyline_decode gmaps
    (driver_origin (driver req)) (driver_destination (driver req)) tr
  = (inr [], tr1) ->
  match_passengers haversine polyline_decode gmaps uuid4 req tr
  = (inl (HTTPException 404 "Could not find a route for the driver"), tr1)
  /\ tr1 = tr ++ [EvDirections (driver_origin (driver req))
                    (driver_destination (driver req))]
  /\ (0 < seats_available (driver req) ->
      post_match haversine polyline_decode gmaps uuid4 req tr
      = (inl (HTTPException 404 "Could not find a route for the driver"), tr1)).
Proof.
  intros H. destruct gmaps as [client|]; [|discriminate].
  assert (Hm : match_passengers haversine polyline_decode (Some client) uuid4 req tr
               = (inl (HTTPException 404 "Could not find a route for the driver"), tr1)).
  { unfold match_passengers, bind. by rewrite H. }
  rewrite get_route_coords_returns in H. injection H as Hr Htr.
  repeat split; [done | done |].
  intros Hpos. unfold post_match, validate, bind.
  destruct (0 <? seats_available (driver req)) eqn:E; [done | lia].
Qed.


(** C9, as the code has it: two answered invocations with the same client,
    request and hence route, passenger list, seat count and tolerance agree on
    the matched list, the unmatched list and the remaining seats, whatever
    trace they start from; the [map_url] of each is built from the identifier
    drawn in that invocation. *)
Theorem deterministic_except_map_url (gmaps : option Client) (req : MatchRequest)
    (uuid_1 uuid_2 : string) (tr1 tr2 tr1' tr2' : list Event)
    (resp1 resp2 : MatchResponse) :
  match_passengers haversine polyline_decode gmaps uuid_1 req tr1 = (inr resp1, tr1') ->
  match_passengers haversine polyline_decode gmaps uuid_2 req tr2 = (inr resp2, tr2') ->
  matched_passengers resp1 = matched_passengers resp2
  /\ unmatched_passengers resp1 = unmatched_passengers resp2
  /\ seats_remaining resp1 = seats_remaining resp2
  /\ map_url resp1 = Some (map_url_of uuid_1)
  /\ map_url resp2 = Some (map_url_of uuid_2).
Proof.
  intros H1 H2.
  apply match_passengers_inv in H1 as (c1 & -> & _ & ->).
  apply match_passengers_inv in H2 as (c2 & [= <-] & _ & ->).
  done.
Qed.

End Properties.

(** ** Further properties of the program *)

Section Coverage.

Variable haversine : Coord -> Coord -> float.
Variable polyline_decode : string -> list Coord.

(** *** Exact traces *)

Lemma resolve_run client loc tr :
  resolve (Some client) loc tr = (inr (resolved client loc), tr ++ resolve_calls loc).
Proof.
  unfold resolve, resolved, resolve_calls. destruct (coordinates loc) as [c|].
  - unfold ret. by rewrite app_nil_r.
  - unfold geocode_address, bind, emit, ret.
    by destruct (geocode client (address loc)).
Qed.

Lemma loop_body_run client route tol st p tr :
  loop_body haversine (Some client) route tol st p tr
  = (inr (step haversine client route tol st p),
     tr ++ step_calls haversine client route tol st p).
Proof.
  unfold loop_body, step, step_calls, on_route, seated_entry.
  destruct (seats st =? 0).
  { unfold ret. by rewrite app_nil_r. }
  unfold bind. rewrite !resolve_run.
  destruct (resolved client (origin p)) as [oc|],
           (resolved client (destination p)) as [dc|];
    try (unfold ret; by rewrite app_nil_r, app_assoc).
  rewrite is_passenger_match_run.
  destruct (near haversine oc route tol && near haversine dc route tol);
    unfold ret; by rewrite <- !app_assoc.
Qed.

Lemma for_each_run client route tol ps st tr :
  for_each (loop_body haversine (Some client) route tol) st ps tr
  = (inr (fold_left (step haversine client route tol) ps st),
     tr ++ loop_calls haversine client route tol st ps).
Proof.
  revert st tr. induction ps as [|p ps IH]; intros st tr; simpl.
  - unfold ret. by rewrite app_nil_r.
  - unfold bind. rewrite loop_body_run, IH. by rewrite <- app_assoc.
Qed.

(** The path a request saves its map under. *)
Lemma saved_name_no_s s :
  no_s s = true -> remove_all_from "static/" s 0 = s.
Proof.
  induction s as [|c s IH]; simpl; [done|].
  intros [Hc Hs]%andb_true_iff. rewrite (IH Hs).
  destruct c as [[] [] [] [] [] [] [] []]; try done; simpl in Hc; done.
Qed.

Lemma no_s_app s t : no_s s = true -> no_s t = true -> no_s (s +:+ t) = true.
Proof.
  intros Hs Ht. induction s as [|c s IH]; simpl in *; [done|].
  apply andb_true_iff in Hs as [Hc Hs]. by rewrite Hc, IH.
Qed.

Lemma file_name_of_uuid map_id :
  no_s map_id = true ->
  str_remove "static/" ("static/carpool_map_" +:+ map_id +:+ ".html")
  = "carpool_map_" +:+ map_id +:+ ".html".
Proof.
  intros H. unfold str_remove. simpl.
  assert (Hn : no_s (map_id +:+ ".html") = true) by by apply no_s_app.
  by rewrite (saved_name_no_s ("" +:+ map_id +:+ ".html") Hn).
Qed.

Lemma match_passengers_run client uuid4 req tr :
  route_of polyline_decode client (driver req) <> [] ->
  let route := route_of polyline_decode client (driver req) in
  let st := fold_left (step haversine client route (tolerance_km req))
              (passengers req) (initial req) in
  match_passengers haversine polyline_decode (Some client) uuid4 req tr
  = (inr {| matched_passengers := matched st;
            unmatched_passengers := unmatched st;
            seats_remaining := seats st;
            map_url := Some (map_url_of uuid4) |},
     tr ++ EvDirections (driver_origin (driver req)) (driver_destination (driver req))
        :: loop_calls haversine client route (tolerance_km req) (initial req)
             (passengers req)
        ++ [EvSaveMap ("static/carpool_map_" +:+ uuid4 +:+ ".html")]).
Proof.
  intros Hne. cbv zeta. unfold match_passengers, bind.
  rewrite get_route_coords_returns.
  destruct (route_of polyline_decode client (driver req)) as [|w route'] eqn:Hr;
    [done|].
  rewrite for_each_run. unfold generate_map, bind, emit, ret. cbv beta iota.
  f_equal. by rewrite <- !app_assoc.
Qed.

(** *** The proximity test: symmetry, monotonicity, cost *)

Lemma near_reverse x route tol :
  near haversine x (reverse route) tol = near haversine x route tol.
Proof.
  apply eq_true_iff_eq. rewrite !near_true.
  split; intros (w & Hw & Hle); exists w; split; auto; by apply elem_of_reverse.
Qed.

(** X1: the verdict of the proximity test does not depend on the direction of
    travel: it is the same with the passenger's origin and destination
    swapped, and the same on the reversed route. *)
Theorem proximity_test_direction_blind (route : list Coord) (o d : Coord)
    (tol : float) (tr1 tr2 tr3 : list Event) :
  exists verdict : bool,
    returns (is_passenger_match haversine route o d tol) tr1 verdict /\
    returns (is_passenger_match haversine route d o tol) tr2 verdict /\
    returns (is_passenger_match haversine (reverse route) o d tol) tr3 verdict.
Proof.
  exists (near haversine o route tol && near haversine d route tol).
  split; [apply is_passenger_match_returns|]. split.
  - rewrite andb_comm. apply is_passenger_match_returns.
  - rewrite <- (near_reverse o), <- (near_reverse d).
    apply is_passenger_match_returns.
Qed.

Lemma SFleb_trans x y z :
  SpecFloat.SFleb x y = true -> SpecFloat.SFleb y z = true ->
  SpecFloat.SFleb x z = true.
Proof.
  unfold SpecFloat.SFleb.
  destruct x as [sx|sx| |sx mx ex], y as [sy|sy| |sy my ey], z as [sz|sz| |sz mz ez];
    simpl; try done;
    repeat match goal with s : bool |- _ => destruct s end; simpl; try done.
  all: destruct (Z.compare_spec ex ey), (Z.compare_spec ey ez), (Z.compare_spec ex ez);
    simpl; try done; try lia; subst.
  all: rewrite ?Pos.compare_cont_spec; simpl.
  all: destruct (Pos.compare_spec mx my), (Pos.compare_spec my mz),
         (Pos.compare_spec mx mz);
    simpl; try done; try lia.
Qed.

Lemma float_leb_trans (x y z : float) :
  PrimFloat.leb x y = true -> PrimFloat.leb y z = true -> PrimFloat.leb x z = true.
Proof. rewrite !FloatAxioms.leb_spec. apply SFleb_trans. Qed.

Lemma near_monotone x route route' tol tol' :
  route ⊆ route' -> PrimFloat.leb tol tol' = true ->
  near haversine x route tol = true -> near haversine x route' tol' = true.
Proof.
  intros Hsub Htol. rewrite !near_true. intros (w & Hw & Hle).
  exists w. split; [by apply Hsub | by eapply float_leb_trans].
Qed.

(** X2: a match is kept when waypoints are added to the route and when the
    tolerance is raised. *)
Theorem proximity_test_monotone (route route' : list Coord) (o d : Coord)
    (tol tol' : float) (tr tr' : list Event) :
  route ⊆ route' ->
  PrimFloat.leb tol tol' = true ->
  returns (is_passenger_match haversine route o d tol) tr true ->
  returns (is_passenger_match haversine route' o d tol') tr' true.
Proof.
  intros Hsub Htol Hm.
  pose proof (returns_inj _ _ _ _
                (is_passenger_match_returns haversine route o d tol tr) Hm) as E.
  apply andb_true_iff in E as [Ho Hd].
  pose proof (is_passenger_match_returns haversine route' o d tol' tr') as Hr.
  by rewrite (near_monotone o route route' tol tol' Hsub Htol Ho),
             (near_monotone d route route' tol tol' Hsub Htol Hd) in Hr.
Qed.

Lemma near_calls_haversine x route tol :
  Forall (fun e => is_haversine e = true) (near_calls haversine x route tol).
Proof.
  induction route as [|w route IH]; simpl; constructor; [done|].
  by destruct (PrimFloat.leb (haversine x w) tol).
Qed.

Lemma near_calls_length x route tol :
  (length (near_calls haversine x route tol) <= length route)%nat.
Proof.
  induction route as [|w route IH]; simpl; [lia|].
  destruct (PrimFloat.leb (haversine x w) tol); simpl; lia.
Qed.

(** X3: the proximity test calls nothing but [haversine], at most twice per
    waypoint; on an empty route it returns false without a call; and each scan
    stops at the first near waypoint, so that two calls decide a passenger
    both of whose endpoints are near the first waypoint. *)
Theorem proximity_test_calls (route : list Coord) (o d : Coord) (tol : float)
    (tr : list Event) :
  exists (verdict : bool) (calls : list Event),
    is_passenger_match haversine route o d tol tr = (inr verdict, tr ++ calls) /\
    Forall (fun e => is_haversine e = true) calls /\
    (length calls <= 2 * length route)%nat /\
    (route = [] -> verdict = false /\ calls = []) /\
    (forall w rest,
       route = w :: rest ->
       PrimFloat.leb (haversine o w) tol = true ->
       PrimFloat.leb (haversine d w) tol = true ->
       verdict = true /\ calls = [EvHaversine o w; EvHaversine d w]).
Proof.
  eexists _, _. split; [apply is_passenger_match_run|]. split; [|split; [|split]].
  - apply Forall_app. split; apply near_calls_haversine.
  - rewrite length_app.
    pose proof (near_calls_length o route tol).
    pose proof (near_calls_length d route tol). lia.
  - by intros ->.
  - intros w rest -> Ho Hd. simpl. by rewrite Ho, Hd.
Qed.

Lemma float_leb_nan (x : float) : PrimFloat.leb x PrimFloat.nan = false.
Proof.
  rewrite FloatAxioms.leb_spec. unfold SpecFloat.SFleb, SpecFloat.SFcompare.
  change (Prim2SF PrimFloat.nan) with SpecFloat.S754_nan.
  by destruct (Prim2SF x).
Qed.

(** X4: with a tolerance that is not a number no passenger passes the
    proximity test, whatever the route and the endpoints. *)
Theorem nan_tolerance_never_matches (route : list Coord) (o d : Coord)
    (tr : list Event) :
  returns (is_passenger_match haversine route o d PrimFloat.nan) tr false.
Proof.
  assert (Hn : forall x, near haversine x route PrimFloat.nan = false).
  { intros x. unfold near. induction route as [|w r IH]; simpl; [done|].
    rewrite float_leb_nan. exact IH. }
  pose proof (is_passenger_match_returns haversine route o d PrimFloat.nan tr) as Hr.
  by rewrite !Hn in Hr.
Qed.

(** *** Request-level outcomes *)

(** X5: the order of the request-level checks.  A request is answered only
    if its seat count is positive, the client is initialised and the driver
    has a route.  A non-positive seat count is refused before anything else,
    initialised client or not, and with a positive seat count an uninitialised
    client is reported before any call is made. *)
Theorem request_outcomes (gmaps : option Client) (uuid4 : string)
    (req : MatchRequest) (tr : list Event) :
  (forall resp tr',
     post_match haversine polyline_decode gmaps uuid4 req tr = (inr resp, tr') ->
     0 < seats_available (driver req) /\
     exists client,
       gmaps = Some client /\ route_of polyline_decode client (driver req) <> [])
  /\ (seats_available (driver req) <= 0 ->
      post_match haversine polyline_decode gmaps uuid4 req tr
      = (inl (RequestValidationError "driver.seats_available"), tr))
  /\ (0 < seats_available (driver req) -> gmaps = None ->
      post_match haversine polyline_decode gmaps uuid4 req tr
      = (inl (HTTPException 500 "Google Maps API not initialized"), tr)).
Proof.
  split; [|split].
  - intros resp tr' H. apply post_match_inv in H as [Hpos H].
    apply match_passengers_inv in H as (client & -> & Hne & _). eauto.
  - intros Hle. unfold post_match, validate, bind.
    by destruct (0 <? seats_available (driver req)) eqn:E; [lia|].
  - intros Hpos ->. unfold post_match, validate, bind.
    by destruct (0 <? seats_available (driver req)) eqn:E; [|lia].
Qed.

(** *** Calls of the passenger loop *)

(** X6: from a state without seats the loop runs to its end without a single
    call, initialised client or not, and gives every remaining passenger the
    no-seats entry, in input order. *)
Theorem exhausted_loop_makes_no_call (gmaps : option Client) (route : list Coord)
    (tol : float) (st : Loop) (ps : list Passenger) (tr : list Event) :
  seats st = 0 ->
  for_each (loop_body haversine gmaps route tol) st ps tr
  = (inr {| seats := 0; matched := matched st;
            unmatched := unmatched st ++ map no_seats_entry ps |}, tr).
Proof.
  revert st. induction ps as [|p ps IH]; intros st H0; simpl.
  - unfold ret. rewrite app_nil_r. destruct st; simpl in *; by subst.
  - unfold bind, loop_body. rewrite H0. simpl. unfold ret at 1.
    rewrite IH by done. simpl. by rewrite <- app_assoc.
Qed.

Lemma step_supplied client client' route tol st p :
  supplies_coordinates p ->
  step haversine client route tol st p = step haversine client' route tol st p /\
  step_calls haversine client route tol st p
  = step_calls haversine client' route tol st p /\
  Forall (fun e => is_geocode e = false) (step_calls haversine client route tol st p).
Proof.
  intros [[oc Ho] [dc Hd]].
  unfold step, step_calls, on_route, seated_entry, resolved, resolve_calls.
  rewrite Ho, Hd. repeat split; [].
  destruct (seats st =? 0); [constructor|]. simpl.
  apply Forall_app. split; eapply Forall_impl; try apply near_calls_haversine;
    by intros [].
Qed.

Lemma loop_supplied client client' route tol ps st :
  Forall supplies_coordinates ps ->
  fold_left (step haversine client route tol) ps st
  = fold_left (step haversine client' route tol) ps st /\
  loop_calls haversine client route tol st ps
  = loop_calls haversine client' route tol st ps /\
  Forall (fun e => is_geocode e = false) (loop_calls haversine client route tol st ps).
Proof.
  intros Hall. revert st. induction Hall as [|p ps Hp _ IH]; intros st; simpl.
  - repeat split. constructor.
  - destruct (step_supplied client client' route tol st p Hp) as (Es & Ec & Fc).
    destruct (IH (step haversine client route tol st p)) as (Es' & Ec' & Fc').
    rewrite <- Es, <- Ec, <- Ec'. repeat split; [done|].
    by apply Forall_app.
Qed.

(** X7: coordinates sent with the request are authoritative.  When every
    passenger supplies both, an answered request makes no geocoding call, and
    the answer and the trace are the same with any other geocoder. *)
Theorem supplied_coordinates_are_authoritative (client : Client) (uuid4 : string)
    (req : MatchRequest) (tr tr' : list Event) (resp : MatchResponse) :
  Forall supplies_coordinates (passengers req) ->
  match_passengers haversine polyline_decode (Some client) uuid4 req tr = (inr resp, tr') ->
  (exists calls, tr' = tr ++ calls /\ Forall (fun e => is_geocode e = false) calls)
  /\ (forall geocode',
        match_passengers haversine polyline_decode
          (Some {| directions := directions client; geocode := geocode' |}) uuid4 req tr
        = (inr resp, tr')).
Proof.
  intros Hall H.
  destruct (match_passengers_inv haversine polyline_decode _ _ _ _ _ _ H)
    as (c & [= <-] & Hne & _).
  rewrite (match_passengers_run client uuid4 req tr Hne) in H.
  injection H as <- <-. split.
  - eexists. split; [done|]. constructor; [done|]. apply Forall_app. split.
    + by apply (loop_supplied client client).
    + by constructor.
  - intros geocode'. set (client' := {| directions := _; geocode := geocode' |}).
    assert (Hr : route_of polyline_decode client' (driver req)
                 = route_of polyline_decode client (driver req)) by done.
    rewrite (match_passengers_run client' uuid4 req tr) by by rewrite Hr.
    rewrite Hr.
    destruct (loop_supplied client client'
                (route_of polyline_decode client (driver req)) (tolerance_km req)
                (passengers req) (initial req) Hall) as (-> & -> & _).
    done.
Qed.

Lemma step_calls_counts client route tol st p :
  Forall (fun e => is_geocode e || is_haversine e = true)
    (step_calls haversine client route tol st p) /\
  (length (List.filter is_geocode (step_calls haversine client route tol st p)) <= 2)%nat /\
  (length (List.filter is_haversine (step_calls haversine client route tol st p))
   <= 2 * length route)%nat.
Proof.
  unfold step_calls. destruct (seats st =? 0); [simpl; repeat split; [constructor|lia..]|].
  assert (Hn : forall x,
             Forall (fun e => is_geocode e || is_haversine e = true)
               (near_calls haversine x route tol) /\
             List.filter is_geocode (near_calls haversine x route tol) = [] /\
             (length (List.filter is_haversine (near_calls haversine x route tol))
              <= length route)%nat).
  { intros x. induction route as [|w r (F & G & L)]; simpl; [repeat split; constructor|].
    destruct (PrimFloat.leb (haversine x w) tol); simpl.
    - repeat split; [by repeat constructor | lia].
    - repeat split; [by constructor | done | lia]. }
  assert (Hg : forall loc,
             Forall (fun e => is_geocode e || is_haversine e = true) (resolve_calls loc) /\
             (length (List.filter is_geocode (resolve_calls loc)) <= 1)%nat /\
             List.filter is_haversine (resolve_calls loc) = []).
  { intros loc. unfold resolve_calls. destruct (coordinates loc); simpl;
      repeat split; try lia; by repeat constructor. }
  destruct (Hg (origin p)) as (F1 & G1 & H1), (Hg (destination p)) as (F2 & G2 & H2).
  rewrite !List.filter_app, !length_app, H1, H2. simpl.
  destruct (resolved client (origin p)) as [oc|],
           (resolved client (destination p)) as [dc|]; simpl;
    try (repeat split; [by rewrite !Forall_app | lia | lia]).
  destruct (Hn oc) as (Fo & Go & Lo), (Hn dc) as (Fd & Gd & Ld).
  rewrite !List.filter_app, !length_app, Go, Gd. simpl.
  repeat split; [by rewrite !Forall_app | lia | lia].
Qed.

Lemma loop_calls_counts client route tol ps st :
  Forall (fun e => is_geocode e || is_haversine e = true)
    (loop_calls haversine client route tol st ps) /\
  (length (List.filter is_geocode (loop_calls haversine client route tol st ps))
   <= 2 * length ps)%nat /\
  (length (List.filter is_haversine (loop_calls haversine client route tol st ps))
   <= 2 * length route * length ps)%nat.
Proof.
  revert st. induction ps as [|p ps IH]; intros st; simpl.
  - repeat split; [constructor | lia | lia].
  - destruct (step_calls_counts client route tol st p) as (F & G & L).
    destruct (IH (step haversine client route tol st p)) as (F' & G' & L').
    rewrite !List.filter_app, !length_app.
    repeat split; [by apply Forall_app | lia | nia].
Qed.

(** X8: an answered request calls the directions provider once, first, and
    saves one map, last; in between it only geocodes and measures distances,
    with at most two geocoding calls per passenger and at most two distance
    computations per passenger and waypoint. *)
Theorem request_trace_shape (client : Client) (uuid4 : string)
    (req : MatchRequest) (tr tr' : list Event) (resp : MatchResponse) :
  match_passengers haversine polyline_decode (Some client) uuid4 req tr = (inr resp, tr') ->
  exists work,
    tr' = tr ++ EvDirections (driver_origin (driver req)) (driver_destination (driver req))
             :: work ++ [EvSaveMap ("static/carpool_map_" +:+ uuid4 +:+ ".html")] /\
    Forall (fun e => is_geocode e || is_haversine e = true) work /\
    (length (List.filter is_geocode work) <= 2 * length (passengers req))%nat /\
    (length (List.filter is_haversine work)
     <= 2 * length (route_of polyline_decode client (driver req))
        * length (passengers req))%nat.
Proof.
  intros H.
  destruct (match_passengers_inv haversine polyline_decode _ _ _ _ _ _ H)
    as (c & [= <-] & Hne & _).
  rewrite (match_passengers_run client uuid4 req tr Hne) in H.
  injection H as _ <-. eexists. split; [done|]. apply loop_calls_counts.
Qed.

(** X9: with a seat left and no coordinates supplied, an origin the geocoder
    does not know does not stop the iteration short: the destination is
    geocoded all the same, no distance is computed, and the passenger gets the
    geocoding entry. *)
Theorem failed_origin_still_geocodes_destination (client : Client)
    (route : list Coord) (tol : float) (st : Loop) (p : Passenger) (tr : list Event) :
  seats st <> 0 ->
  coordinates (origin p) = None ->
  coordinates (destination p) = None ->
  geocode client (address (origin p)) = [] ->
  loop_body haversine (Some client) route tol st p tr
  = (inr {| seats := seats st; matched := matched st;
            unmatched := unmatched st ++ [geocode_failed_entry p] |},
     tr ++ [EvGeocode (address (origin p)); EvGeocode (address (destination p))]).
Proof.
  intros Hne Ho Hd Hg. rewrite loop_body_run.
  unfold step, step_calls, on_route, seated_entry, resolved, resolve_calls.
  rewrite Ho, Hd, Hg. simpl.
  destruct (seats st =? 0) eqn:E; [lia|]. simpl.
  by destruct (head (geocode client (address (destination p)))).
Qed.

(** *** The entries of a response *)

Lemma near_false x route tol :
  near haversine x route tol = false ->
  forall w, w ∈ route -> PrimFloat.leb (haversine x w) tol = false.
Proof.
  intros Hn w Hw. destruct (PrimFloat.leb (haversine x w) tol) eqn:E; [|done].
  assert (near haversine x route tol = true) by (apply near_true; eauto).
  congruence.
Qed.

(** What the entry of a passenger with a seat left is. *)
Lemma seated_entry_cases client route tol p :
  (on_route haversine client route tol p = true /\
   exists oc dc,
     seated_entry haversine client route tol p = matched_entry p oc dc /\
     near haversine oc route tol = true /\ near haversine dc route tol = true)
  \/
  (on_route haversine client route tol p = false /\
   seated_entry haversine client route tol p = geocode_failed_entry p)
  \/
  (on_route haversine client route tol p = false /\
   exists oc dc,
     seated_entry haversine client route tol p = not_on_route_entry p oc dc /\
     (near haversine oc route tol = false \/ near haversine dc route tol = false)).
Proof.
  unfold on_route, seated_entry.
  destruct (resolved client (origin p)) as [oc|]; [|by right; left].
  destruct (resolved client (destination p)) as [dc|]; [|by right; left].
  destruct (near haversine oc route tol) eqn:Eo, (near haversine dc route tol) eqn:Ed;
    simpl; [left | right; right ..]; (split; [done|]); exists oc, dc; auto.
Qed.

(** A property of the entries, kept by the loop. *)
Lemma fold_entries_Forall (Pm Pu : Entry -> Prop) client route tol :
  (forall p, on_route haversine client route tol p = true ->
             Pm (seated_entry haversine client route tol p)) ->
  (forall p, on_route haversine client route tol p = false ->
             Pu (seated_entry haversine client route tol p)) ->
  (forall p, Pu (no_seats_entry p)) ->
  forall ps st,
    Forall Pm (matched st) -> Forall Pu (unmatched st) ->
    Forall Pm (matched (fold_left (step haversine client route tol) ps st)) /\
    Forall Pu (unmatched (fold_left (step haversine client route tol) ps st)).
Proof.
  intros Hm Hu Hn. induction ps as [|p ps IH]; intros st Fm Fu; simpl; [done|].
  apply IH;
    destruct (step_cases haversine client route tol st p)
      as [(_ & Hf & _ & Em & Eu) | (_ & Em & Eu & Hor)];
    rewrite ?Em, ?Eu; auto.
  - apply Forall_app. split; [done|]. constructor; [|done]. by apply Hm.
  - apply Forall_app. split; [done|]. constructor; [|done].
    destruct (seats st =? 0) eqn:E; [apply Hn|].
    apply Hu. destruct Hor as [H0|Hf]; [lia | done].
Qed.

(** X10: in every response the entries have one of four shapes.  A matched
    entry has no reason and both coordinates; an unmatched entry has one of
    the three reasons, with both coordinates when the reason is the route and
    with neither coordinate key otherwise. *)
Theorem response_entries_shape (gmaps : option Client) (uuid4 : string)
    (req : MatchRequest) (tr tr' : list Event) (resp : MatchResponse) :
  match_passengers haversine polyline_decode gmaps uuid4 req tr = (inr resp, tr') ->
  Forall matched_shape (matched_passengers resp) /\
  Forall unmatched_shape (unmatched_passengers resp).
Proof.
  intros H. apply match_passengers_inv in H as (client & -> & _ & ->). simpl.
  apply fold_entries_Forall; try done.
  - intros p Hf.
    destruct (seated_entry_cases client (route_of polyline_decode client (driver req))
                (tolerance_km req) p)
      as [(_ & oc & dc & -> & _) | [(Hf' & _) | (Hf' & _)]]; [|congruence..].
    split; [done|]. by exists oc, dc.
  - intros p Hf.
    destruct (seated_entry_cases client (route_of polyline_decode client (driver req))
                (tolerance_km req) p)
      as [(Hf' & _) | [(_ & ->) | (_ & oc & dc & -> & _)]]; [congruence| |].
    + right. left. done.
    + right. right. split; [done|]. by exists oc, dc.
  - intros p. left. done.
Qed.

(** X11: matching is sound and the route reason is justified.  The
    coordinates of every matched entry each have a waypoint within the
    tolerance; in every entry with the route reason one of the two coordinates
    has no waypoint within the tolerance. *)
Theorem matched_entries_are_near (client : Client) (uuid4 : string)
    (req : MatchRequest) (tr tr' : list Event) (resp : MatchResponse) :
  let route := route_of polyline_decode client (driver req) in
  let tol := tolerance_km req in
  match_passengers haversine polyline_decode (Some client) uuid4 req tr = (inr resp, tr') ->
  Forall (fun e => exists oc dc,
            e !! "origin_coords" = Some (VCoords oc) /\
            e !! "destination_coords" = Some (VCoords dc) /\
            (exists w, w ∈ route /\ PrimFloat.leb (haversine oc w) tol = true) /\
            (exists w, w ∈ route /\ PrimFloat.leb (haversine dc w) tol = true))
    (matched_passengers resp)
  /\
  Forall (fun e => reason_of e = Some "Not on driver's route" ->
            exists oc dc,
              e !! "origin_coords" = Some (VCoords oc) /\
              e !! "destination_coords" = Some (VCoords dc) /\
              ((forall w, w ∈ route -> PrimFloat.leb (haversine oc w) tol = false) \/
               (forall w, w ∈ route -> PrimFloat.leb (haversine dc w) tol = false)))
    (unmatched_passengers resp).
Proof.
  intros route tol H.
  apply match_passengers_inv in H as (c & [= <-] & _ & ->). simpl. fold route tol.
  apply fold_entries_Forall; try done.
  - intros p Hf.
    destruct (seated_entry_cases client route tol p)
      as [(_ & oc & dc & -> & Ho & Hd) | [(Hf' & _) | (Hf' & _)]]; [|congruence..].
    exists oc, dc. repeat split; try done; by apply near_true.
  - intros p Hf.
    destruct (seated_entry_cases client route tol p)
      as [(Hf' & _) | [(_ & ->) | (_ & oc & dc & -> & Hfar)]]; [congruence|done|].
    intros _. exists oc, dc. repeat split; try done.
    destruct Hfar as [Ho|Hd]; [left | right]; by apply near_false.
Qed.

Lemma seated_reason client route tol p :
  reason_of (seated_entry haversine client route tol p) <> Some "No seats available".
Proof.
  destruct (seated_entry_cases client route tol p)
    as [(_ & oc & dc & -> & _) | [(_ & ->) | (_ & oc & dc & -> & _)]]; done.
Qed.

Lemma fold_no_seats_reason client route tol ps st :
  (forall e, e ∈ unmatched st -> reason_of e = Some "No seats available" ->
             seats st = 0) ->
  forall e, e ∈ unmatched (fold_left (step haversine client route tol) ps st) ->
            reason_of e = Some "No seats available" ->
            seats (fold_left (step haversine client route tol) ps st) = 0.
Proof.
  revert st. induction ps as [|p ps IH]; intros st Hst; simpl; [done|].
  apply IH. intros e He Hr.
  destruct (step_cases haversine client route tol st p)
    as [(Hne & _ & _ & _ & Eu) | (Es & _ & Eu & _)]; rewrite Eu in He.
  - by specialize (Hst e He Hr).
  - rewrite Es. apply elem_of_app in He as [He | ->%list_elem_of_singleton]; [eauto|].
    destruct (seats st =? 0) eqn:E; [lia|]. by apply seated_reason in Hr.
Qed.

(** X12: the no-seats reason is given only when the seats have run out: a
    response that holds an entry with that reason reports no remaining
    seat. *)
Theorem no_seats_reason_means_no_seat_left (gmaps : option Client) (uuid4 : string)
    (req : MatchRequest) (tr tr' : list Event) (resp : MatchResponse) (e : Entry) :
  match_passengers haversine polyline_decode gmaps uuid4 req tr = (inr resp, tr') ->
  e ∈ unmatched_passengers resp ->
  reason_of e = Some "No seats available" ->
  seats_remaining resp = 0.
Proof.
  intros H He Hr. apply match_passengers_inv in H as (client & -> & _ & ->).
  simpl in *. eapply fold_no_seats_reason; [|exact He|exact Hr].
  simpl. intros e' He'. by apply elem_of_nil in He'.
Qed.

Lemma fold_enough_seats client route tol ps st :
  Z.of_nat (length (List.filter (on_route haversine client route tol) ps)) < seats st ->
  let st' := fold_left (step haversine client route tol) ps st in
  matched st'
  = matched st ++ map (seated_entry haversine client route tol)
                    (List.filter (on_route haversine client route tol) ps) /\
  unmatched st'
  = unmatched st ++ map (seated_entry haversine client route tol)
                      (List.filter (fun p => negb (on_route haversine client route tol p))
                         ps) /\
  seats st'
  = seats st - Z.of_nat (length (List.filter (on_route haversine client route tol) ps)).
Proof.
  revert st. induction ps as [|p ps IH]; intros st Hlt; simpl in *.
  - rewrite !app_nil_r. repeat split. lia.
  - unfold step at 2 4 6.
    destruct (seats st =? 0) eqn:E0.
    { destruct (on_route haversine client route tol p); simpl in Hlt; lia. }
    destruct (on_route haversine client route tol p) eqn:Ef; simpl in *.
    + destruct (IH {| seats := seats st - 1;
                     matched := matched st ++ [seated_entry haversine client route tol p];
                     unmatched := unmatched st |}) as (Em & Eu & Es); [simpl; lia|].
      simpl in *. rewrite Em, Eu, Es, <- app_assoc. repeat split. lia.
    + destruct (IH {| seats := seats st; matched := matched st;
                     unmatched := unmatched st ++ [seated_entry haversine client route tol p] |})
        as (Em & Eu & Es); [simpl; lia|].
      simpl in *. rewrite Em, Eu, Es, <- app_assoc. repeat split.
Qed.

(** X13: with more seats than passengers on the route, the response is the
    partition of the input by the proximity verdict: the matched list holds
    the entries of all passengers on the route, the unmatched list those of
    all others, both in input order and none with the no-seats reason, and
    the remaining seats are the initial ones less the matched. *)
Theorem enough_seats_partition (client : Client) (uuid4 : string)
    (req : MatchRequest) (tr tr' : list Event) (resp : MatchResponse) :
  let route := route_of polyline_decode client (driver req) in
  let fits := on_route haversine client route (tolerance_km req) in
  let entry := seated_entry haversine client route (tolerance_km req) in
  Z.of_nat (length (List.filter fits (passengers req))) < seats_available (driver req) ->
  match_passengers haversine polyline_decode (Some client) uuid4 req tr = (inr resp, tr') ->
  matched_passengers resp = map entry (List.filter fits (passengers req)) /\
  unmatched_passengers resp
  = map entry (List.filter (fun p => negb (fits p)) (passengers req)) /\
  seats_remaining resp
  = seats_available (driver req) - Z.of_nat (length (matched_passengers resp)) /\
  0 < seats_remaining resp /\
  Forall (fun e => reason_of e <> Some "No seats available") (unmatched_passengers resp).
Proof.
  intros route fits entry Hlt H.
  apply match_passengers_inv in H as (c & [= <-] & _ & ->). simpl. fold route.
  destruct (fold_enough_seats client route (tolerance_km req) (passengers req)
              (initial req) Hlt) as (Em & Eu & Es).
  simpl in Em, Eu, Es. rewrite Em, Eu, Es. fold fits entry.
  rewrite length_map. repeat split; [lia|].
  apply Forall_forall. intros e (p & -> & _)%list_elem_of_fmap.
  apply seated_reason.
Qed.

Lemma fold_extends client route tol ps st :
  matched st `prefix_of` matched (fold_left (step haversine client route tol) ps st) /\
  unmatched st `prefix_of` unmatched (fold_left (step haversine client route tol) ps st) /\
  seats (fold_left (step haversine client route tol) ps st) <= seats st.
Proof.
  revert st. induction ps as [|p ps IH]; intros st; simpl.
  { split; [done | split; [done | lia]]. }
  destruct (IH (step haversine client route tol st p)) as (Pm & Pu & Ps).
  destruct (step_cases haversine client route tol st p)
    as [(_ & _ & Es & Em & Eu) | (Es & Em & Eu & _)];
    rewrite Es, Em, Eu in *;
    (split; [|split; [|lia]]); try done; by eapply prefix_app_l.
Qed.

(** X14: the answer to a longer passenger list extends the answer to a
    shorter one.  For the same client, driver and tolerance, the lists
    answered for [ps1] are prefixes of the lists answered for [ps1 ++ ps2]:
    passengers that come later change nothing for those before them. *)
Theorem later_passengers_change_nothing_before (gmaps : option Client)
    (uuid_1 uuid_2 : string) (d : Driver) (tol : float) (ps1 ps2 : list Passenger)
    (tr1 tr1' tr2 tr2' : list Event) (resp1 resp2 : MatchResponse) :
  match_passengers haversine polyline_decode gmaps uuid_1
    {| driver := d; passengers := ps1; tolerance_km := tol |} tr1 = (inr resp1, tr1') ->
  match_passengers haversine polyline_decode gmaps uuid_2
    {| driver := d; passengers := ps1 ++ ps2; tolerance_km := tol |} tr2
  = (inr resp2, tr2') ->
  matched_passengers resp1 `prefix_of` matched_passengers resp2 /\
  unmatched_passengers resp1 `prefix_of` unmatched_passengers resp2 /\
  seats_remaining resp2 <= seats_remaining resp1.
Proof.
  intros H1 H2.
  apply match_passengers_inv in H1 as (c1 & -> & _ & ->).
  apply match_passengers_inv in H2 as (c2 & [= <-] & _ & ->).
  simpl. rewrite fold_left_app. apply fold_extends.
Qed.

(** *** The saved map *)

(** X15: the map an answered request saves is the one its [map_url] names and
    the one [get_map] serves.  For an identifier without the letter s, as
    every [uuid4] text is, the file is saved last under
    [static/carpool_map_<id>.html], the response points to
    [/static/carpool_map_<id>.html], and [get_map] of that file name returns
    the text the disk holds at the saved path, or raises the 404 error when
    the disk holds none. *)
Theorem saved_map_is_served (client : Client) (uuid4 : string)
    (req : MatchRequest) (tr tr' : list Event) (resp : MatchResponse) :
  no_s uuid4 = true ->
  match_passengers haversine polyline_decode (Some client) uuid4 req tr = (inr resp, tr') ->
  map_url resp = Some ("/static/" +:+ "carpool_map_" +:+ uuid4 +:+ ".html") /\
  (exists tr0, tr' = tr0 ++ [EvSaveMap ("static/carpool_map_" +:+ uuid4 +:+ ".html")]) /\
  (forall disk tr2,
     get_map disk ("carpool_map_" +:+ uuid4 +:+ ".html") tr2
     = match disk !! ("static/carpool_map_" +:+ uuid4 +:+ ".html") with
       | Some content => (inr content, tr2)
       | None => (inl (HTTPException 404 "Map not found"), tr2)
       end).
Proof.
  intros Hs H.
  destruct (match_passengers_inv haversine polyline_decode _ _ _ _ _ _ H)
    as (c & [= <-] & Hne & _).
  rewrite (match_passengers_run client uuid4 req tr Hne) in H.
  injection H as <- <-. simpl. split; [|split].
  - unfold map_url_of. by rewrite file_name_of_uuid.
  - eexists (tr ++ _ :: _). by rewrite <- app_assoc.
  - intros disk tr2. unfold get_map. simpl.
    by destruct (disk !! _).
Qed.

(** *** Drawing the map *)

Lemma entry_markers_drawable e i status color :
  drawable e ->
  (exists m1 m2, entry_markers e i status color = inr [m1; m2]) \/
  (entry_markers e i status color = inl ValueError /\
   exists key c,
     e !! key = Some (VCoords c) /\
     nan_location (offset_coords c i default_offset) = true).
Proof.
  intros ([n Hn] & oc & dc & Ho & Hd).
  unfold entry_markers, entry_offset. rewrite Ho, Hd, Hn.
  destruct (nan_location (offset_coords oc i default_offset)) eqn:Eo; simpl.
  { right. split; [done|]. by exists "origin_coords", oc. }
  destruct (nan_location (offset_coords dc i default_offset)) eqn:Ed; simpl.
  { right. split; [done|]. by exists "destination_coords", dc. }
  left. eauto.
Qed.

Lemma has_nan_marker_head i e es key c :
  e !! key = Some (VCoords c) ->
  nan_location (offset_coords c i default_offset) = true ->
  has_nan_marker i (e :: es).
Proof. intros He Hn. exists 0%nat, e, key, c. by rewrite Nat.add_0_r. Qed.

Lemma has_nan_marker_tail i e es :
  has_nan_marker (S i) es -> has_nan_marker i (e :: es).
Proof.
  intros (k & e' & key & c & Hk & He & Hn). exists (S k), e', key, c.
  by rewrite Nat.add_succ_r.
Qed.

Lemma matched_markers_drawable i es :
  Forall drawable es ->
  (exists ms, matched_markers i es = inr ms /\ length ms = (2 * length es)%nat) \/
  (matched_markers i es = inl ValueError /\ has_nan_marker i es).
Proof.
  intros H. revert i. induction H as [|e es He _ IH]; intros i; simpl.
  { left. by exists []. }
  destruct (entry_markers_drawable e i "Matched" "green" He)
    as [(m1 & m2 & ->) | (-> & key & c & Hc & Hn)].
  - destruct (IH (S i)) as [(ms & -> & Hl) | (-> & Hnan)].
    + left. eexists. split; [done|]. simpl. lia.
    + right. split; [done|]. by apply has_nan_marker_tail.
  - right. split; [done|]. by eapply has_nan_marker_head.
Qed.

Lemma unmatched_markers_drawable i es :
  Forall (fun e => (has_route_reason e = true /\ drawable e) \/
                   (has_route_reason e = false /\ lacks_coordinates e)) es ->
  (exists ms,
     unmatched_markers i es = inr ms /\
     length ms = (2 * length (List.filter has_route_reason es))%nat) \/
  (unmatched_markers i es = inl ValueError /\ has_nan_marker i es).
Proof.
  intros H. revert i.
  induction H as [|e es He _ IH]; intros i; simpl.
  { left. by exists []. }
  destruct He as [[-> He] | [-> [Ho|Hd]]].
  - destruct (entry_markers_drawable e i "Unmatched" "red" He)
      as [(m1 & m2 & ->) | (-> & key & c & Hc & Hn)];
      destruct He as (_ & oc & dc & -> & ->).
    + destruct (IH (S i)) as [(ms & -> & Hl) | (-> & Hnan)].
      * left. eexists. split; [done|]. simpl. lia.
      * right. split; [done|]. by apply has_nan_marker_tail.
    + right. split; [done|]. by eapply has_nan_marker_head.
  - rewrite Ho.
    destruct (IH (S i)) as [(ms & -> & Hl) | (-> & Hnan)].
    + left. eexists. split; [done|]. simpl. lia.
    + right. split; [done|]. by apply has_nan_marker_tail.
  - rewrite Hd.
    destruct (IH (S i)) as [(ms & -> & Hl) | (-> & Hnan)].
    + left. destruct (e !! "origin_coords"); eexists; (split; [done|]); simpl; lia.
    + right. split; [by destruct (e !! "origin_coords")|].
      by apply has_nan_marker_tail.
Qed.

(** X16: what drawing the map of a response can do.  On the route and the two
    lists of an answered request [generate_map] misses no key and no index and
    adds no ill-typed values: the one error it can raise is the [ValueError]
    of a location that is not a number, a waypoint or the shifted coordinate
    of an entry.  When it raises nothing, the map is centred on a waypoint,
    shows the route, and holds the driver's marker, two markers for each
    matched passenger and two for each unmatched passenger with the route
    reason, and none for the others. *)
Theorem drawing_a_response_fails_only_on_nan (client : Client) (uuid4 : string)
    (req : MatchRequest) (tr tr' : list Event) (resp : MatchResponse) :
  match_passengers haversine polyline_decode (Some client) uuid4 req tr = (inr resp, tr') ->
  match build_map (route_of polyline_decode client (driver req))
          (matched_passengers resp) (unmatched_passengers resp) with
  | inr (Some m) =>
      route_line m = route_of polyline_decode client (driver req) /\
      map_location m ∈ route_of polyline_decode client (driver req) /\
      length (markers m)
      = (1 + 2 * length (matched_passengers resp)
         + 2 * length (List.filter has_route_reason (unmatched_passengers resp)))%nat
  | inr None => False
  | inl err =>
      err = ValueError /\
      ((exists w, w ∈ route_of polyline_decode client (driver req) /\
                  nan_location w = true) \/
       has_nan_marker 0 (matched_passengers resp) \/
       has_nan_marker 0 (unmatched_passengers resp))
  end.
Proof.
  intros H. apply match_passengers_inv in H as (c & [= <-] & Hne & ->). simpl.
  set (route := route_of polyline_decode client (driver req)) in *.
  set (st := fold_left _ _ _).
  assert (Hshape :
    Forall drawable (matched st) /\
    Forall (fun e => (has_route_reason e = true /\ drawable e) \/
                     (has_route_reason e = false /\ lacks_coordinates e))
      (unmatched st)).
  { apply fold_entries_Forall; try done.
    - intros p Hf.
      destruct (seated_entry_cases client route (tolerance_km req) p)
        as [(_ & oc & dc & -> & _) | [(Hf' & _) | (Hf' & _)]]; [|congruence..].
      split; [by eexists|]. by exists oc, dc.
    - intros p Hf.
      destruct (seated_entry_cases client route (tolerance_km req) p)
        as [(Hf' & _) | [(_ & ->) | (_ & oc & dc & -> & _)]]; [congruence| |].
      + right. split; [done|]. by left.
      + left. split; [done|]. split; [by eexists|]. by exists oc, dc.
    - intros p. right. split; [done|]. by left. }
  destruct Hshape as [Fm Fu].
  unfold build_map. destruct route as [|w route'] eqn:Hr; [done|].
  destruct (lookup_lt_is_Some_2 (w :: route') (length (w :: route') `div` 2)%nat)
    as [mid Hmid].
  { apply Nat.div_lt; simpl; lia. }
  rewrite Hmid.
  destruct (existsb nan_location (w :: route')) eqn:En.
  { split; [done|]. left. apply existsb_exists in En as (x & Hx & Hn).
    exists x. split; [by apply list_elem_of_In | done]. }
  destruct (matched_markers_drawable 0 _ Fm) as [(ms & -> & Lms) | (-> & Hnan)];
    [|by auto].
  destruct (unmatched_markers_drawable 0 _ Fu) as [(us & -> & Lus) | (-> & Hnan)];
    [|by auto].
  simpl. split; [done|]. split; [by eapply list_elem_of_lookup_2|].
  rewrite length_app. lia.
Qed.

(** X17: the guard on the unmatched entries works, and the matched entries
    have none.  Drawing the unmatched list never raises a key error for a
    coordinate key: the only key it can miss is the name.  Drawing a matched
    list whose first entry lacks its origin coordinates raises the key error
    for them. *)
Theorem coordinate_keys_are_guarded_for_unmatched_only (i : nat)
    (es : list Entry) (e : Entry) :
  (forall key, unmatched_markers i es = inl (KeyError key) -> key = "name") /\
  (e !! "origin_coords" = None ->
   matched_markers i (e :: es) = inl (KeyError "origin_coords")).
Proof.
  split.
  - revert i. induction es as [|p es IH]; intros i key; simpl; [done|].
    destruct (p !! "origin_coords") as [vo|] eqn:Eo,
             (p !! "destination_coords") as [vd|] eqn:Ed;
      try (destruct (unmatched_markers (S i) es) eqn:Er; [|done];
           intros [= ->]; by eapply IH).
    unfold entry_markers, entry_offset. rewrite Eo, Ed.
    destruct vo as [[|? ?]|co]; try done.
    destruct vd as [[|? ?]|cd]; try done.
    destruct (p !! "name"); [|by intros [= <-]].
    destruct (nan_location _ || nan_location _); [done|].
    destruct (unmatched_markers (S i) es) eqn:Er; [|done].
    intros [= ->]. by eapply IH.
  - intros Ho. simpl. unfold entry_markers, entry_offset. by rewrite Ho.
Qed.

(** X18: the offset of an unmatched passenger's markers counts the entries
    that are not drawn.  Entries without coordinates at the head of the list
    draw nothing, and the rest is drawn from the index advanced by their
    number. *)
Theorem skipped_entries_advance_the_offset (i : nat) (skipped rest : list Entry) :
  Forall lacks_coordinates skipped ->
  unmatched_markers i (skipped ++ rest) = unmatched_markers (i + length skipped) rest.
Proof.
  intros H. revert i. induction H as [|e es He _ IH]; intros i; simpl.
  - by rewrite Nat.add_0_r.
  - rewrite IH, Nat.add_succ_r. simpl.
    destruct (unmatched_markers (S (i + length es)) rest) as [err|ms]; 
      destruct He as [-> | ->]; try done;
      by destruct (e !! "origin_coords").
Qed.

Lemma matched_markers_lookup i es ms k e oc dc n :
  matched_markers i es = inr ms ->
  es !! k = Some e ->
  e !! "origin_coords" = Some (VCoords oc) ->
  e !! "destination_coords" = Some (VCoords dc) ->
  e !! "name" = Some n ->
  ms !! (2 * k)%nat
  = Some {| marker_location := offset_coords oc (i + k) default_offset;
            marker_popup := NamedPopup n " Pickup (Matched)";
            marker_color := "green" |} /\
  ms !! (2 * k + 1)%nat
  = Some {| marker_location := offset_coords dc (i + k) default_offset;
            marker_popup := NamedPopup n " Dropoff (Matched)";
            marker_color := "green" |}.
Proof.
  revert i ms k. induction es as [|p es IH]; intros i ms k Hm Hk Ho Hd Hn; [done|].
  simpl in Hm.
  destruct (entry_markers p i "Matched" "green") as [err|pm] eqn:Ep; [done|].
  destruct (matched_markers (S i) es) as [err|ms'] eqn:Er; [done|].
  injection Hm as <-.
  assert (Hlen : length pm = 2%nat).
  { unfold entry_markers in Ep.
    destruct (entry_offset p "origin_coords" i); [done|].
    destruct (entry_offset p "destination_coords" i); [done|].
    destruct (p !! "name"); [|done].
    destruct (nan_location _ || nan_location _); [done|]. by injection Ep as <-. }
  destruct k as [|k].
  - injection Hk as ->. unfold entry_markers, entry_offset in Ep.
    rewrite Ho, Hd, Hn in Ep.
    destruct (nan_location _ || nan_location _); [done|]. injection Ep as <-.
    rewrite Nat.add_0_r. done.
  - simpl in Hk. destruct (IH (S i) ms' k Er Hk Ho Hd Hn) as [H1 H2].
    replace (i + S k)%nat with (S i + k)%nat by lia.
    split.
    + rewrite lookup_app_r by lia. rewrite Hlen.
      by replace (2 * S k - 2)%nat with (2 * k)%nat by lia.
    + rewrite lookup_app_r by lia. rewrite Hlen.
      by replace (2 * S k + 1 - 2)%nat with (2 * k + 1)%nat by lia.
Qed.

(** X19: where the matched passengers are drawn.  On a drawn map the marker
    after the driver's is the pickup of the first matched entry, and the
    [k]-th matched entry has its pickup and dropoff markers, in green, at its
    coordinates moved by [k] offsets, straight after those of the entries
    before it. *)
Theorem matched_markers_positions (route : list Coord) (matches unmatched : list Entry)
    (m : FoliumMap) (k : nat) (e : Entry) (oc dc : Coord) (n : Value) :
  build_map route matches unmatched = inr (Some m) ->
  matches !! k = Some e ->
  e !! "origin_coords" = Some (VCoords oc) ->
  e !! "destination_coords" = Some (VCoords dc) ->
  e !! "name" = Some n ->
  markers m !! (1 + 2 * k)%nat
  = Some {| marker_location := offset_coords oc k default_offset;
            marker_popup := NamedPopup n " Pickup (Matched)";
            marker_color := "green" |} /\
  markers m !! (2 + 2 * k)%nat
  = Some {| marker_location := offset_coords dc k default_offset;
            marker_popup := NamedPopup n " Dropoff (Matched)";
            marker_color := "green" |}.
Proof.
  intros Hb Hk Ho Hd Hn. unfold build_map in Hb.
  destruct route as [|w route']; [done|].
  destruct ((w :: route') !! _); [|done].
  destruct (existsb nan_location (w :: route')); [done|].
  destruct (matched_markers 0 matches) as [err|ms] eqn:Em; [done|].
  destruct (unmatched_markers 0 unmatched) as [err|us]; [done|].
  injection Hb as <-. simpl.
  destruct (matched_markers_lookup 0 matches ms k e oc dc n Em Hk Ho Hd Hn) as [H1 H2].
  simpl in H1, H2. split.
  - apply lookup_app_l_Some. exact H1.
  - replace (S (k + (k + 0)))%nat with (2 * k + 1)%nat by lia.
    apply lookup_app_l_Some. exact H2.
Qed.

End Coverage.

(** ** Examples on the sample data *)

Lemma handler_run_AB :
  match_passengers equator_km sample_decode (Some sample_client) uuid_a
    (sample_request 1 [passenger_A; passenger_B] 2) []
  = (inr response_AB, trace_AB).
Proof. vm_compute. reflexivity. Qed.

Lemma request_run_AB :
  post_match equator_km sample_decode (Some sample_client) uuid_a
    (sample_request 1 [passenger_A; passenger_B] 2) []
  = (inr response_AB, trace_AB).
Proof. vm_compute. reflexivity. Qed.

(** A waypoint at a distance equal to the tolerance is near: passenger E
    stands on two waypoints and the tolerance is 0. *)
Example boundary_is_near :
  is_passenger_match equator_km [(0, 0); (0, 1); (0, 2)]%float (0, 0)%float (0, 2)%float 0 []
  = (inr true,
     [ EvHaversine (0, 0)%float (0, 0)%float;
       EvHaversine (0, 2)%float (0, 0)%float;
       EvHaversine (0, 2)%float (0, 1)%float;
       EvHaversine (0, 2)%float (0, 2)%float ]).
Proof. vm_compute. reflexivity. Qed.

Lemma greedy_first_come_witness :
  length (matched_passengers response_AB) = 1%nat /\
  seats_remaining response_AB = 0 /\
  unmatched_passengers response_AB !! 0%nat = Some (no_seats_entry passenger_B).
Proof.
  assert (Hmore : 1 < Z.of_nat (length (List.filter
                    (on_route equator_km sample_client
                       (route_of sample_decode sample_client (sample_driver 1)) 2)
                    [passenger_A; passenger_B]))) by (vm_compute; reflexivity).
  destruct (greedy_first_come equator_km sample_decode sample_client uuid_a
              (sample_request 1 [passenger_A; passenger_B] 2) [] trace_AB response_AB
              request_run_AB Hmore) as (_ & Hlen & Hseats & Hlater).
  split; [exact Hlen | split; [exact Hseats |]].
  apply (Hlater [passenger_A] passenger_B []); [reflexivity | reflexivity |].
  vm_compute. discriminate.
Defined.

Lemma no_seats_short_circuit_witness :
  loop_body equator_km (Some sample_client) [(0, 0); (0, 1); (0, 2)]%float 2
    no_seats passenger_A trace_AB
  = (inr {| seats := 0; matched := [];
            unmatched := [no_seats_entry passenger_A] |}, trace_AB).
Proof.
  exact (proj1 (no_seats_short_circuit equator_km (Some sample_client)
                  [(0, 0); (0, 1); (0, 2)]%float 2 no_seats passenger_A trace_AB
                  eq_refl)).
Defined.

Lemma every_passenger_classified_witness :
  (length (matched_passengers response_AB) + length (unmatched_passengers response_AB)
   = length [passenger_A; passenger_B])%nat.
Proof.
  exact (every_passenger_classified equator_km sample_decode (Some sample_client) uuid_a
           (sample_request 1 [passenger_A; passenger_B] 2) [] trace_AB response_AB
           handler_run_AB).
Defined.

Lemma seat_accounting_witness :
  seats_remaining response_AB = 1 - Z.of_nat (length (matched_passengers response_AB))
  /\ 0 <= seats_remaining response_AB.
Proof.
  destruct (seat_accounting equator_km sample_decode (Some sample_client) uuid_a
              (sample_request 1 [passenger_A; passenger_B] 2) [] trace_AB response_AB
              request_run_AB) as (Hrem & Hnonneg & _).
  split; [exact Hrem | exact Hnonneg].
Defined.

Lemma unmatched_reason_and_coordinates_witness :
  returns (loop_body equator_km (Some sample_client) [(0, 0); (0, 1); (0, 2)]%float 2
             five_seats passenger_C) []
    {| seats := 5; matched := []; unmatched := [geocode_failed_entry passenger_C] |}
  /\
  returns (loop_body equator_km (Some sample_client) [(0, 0); (0, 1); (0, 2)]%float 2
             five_seats passenger_D) []
    {| seats := 5; matched := [];
       unmatched := [not_on_route_entry passenger_D (0, 0)%float (0, 5)%float] |}.
Proof.
  assert (H5 : seats five_seats <> 0) by (simpl; lia).
  split.
  - apply (proj1 (unmatched_reason_and_coordinates equator_km sample_client
                    [(0, 0); (0, 1); (0, 2)]%float 2 five_seats passenger_C [] H5)).
    left. reflexivity.
  - apply (proj2 (unmatched_reason_and_coordinates equator_km sample_client
                    [(0, 0); (0, 1); (0, 2)]%float 2 five_seats passenger_D [] H5)
             (0, 0)%float (0, 5)%float); [reflexivity | reflexivity |].
    eexists. vm_compute. reflexivity.
Defined.

Lemma empty_route_is_request_failure_witness :
  match_passengers equator_km sample_decode (Some sample_client) uuid_a nowhere_request []
  = (inl (HTTPException 404 "Could not find a route for the driver"),
     [EvDirections "nowhere" "B"]).
Proof.
  exact (proj1 (empty_route_is_request_failure equator_km sample_decode
                  (Some sample_client) uuid_a nowhere_request []
                  [EvDirections "nowhere" "B"] eq_refl)).
Defined.



(** C9 fails on the code: the same request, run twice, is answered with two
    different [map_url] values, one per identifier drawn. *)
Lemma map_url_differs_between_invocations :
  match_passengers equator_km sample_decode (Some sample_client) uuid_a
    (sample_request 1 [passenger_E] 0) []
  = (inr (response_E_zero uuid_a), trace_E_zero uuid_a) /\
  match_passengers equator_km sample_decode (Some sample_client) uuid_b
    (sample_request 1 [passenger_E] 0) []
  = (inr (response_E_zero uuid_b), trace_E_zero uuid_b) /\
  response_E_zero uuid_a <> response_E_zero uuid_b /\
  map_url (response_E_zero uuid_a)
  = Some "/static/carpool_map_1b9d6bcd-bbfd-4b2d-9b5d-ab8dfbbd4bed.html" /\
  map_url (response_E_zero uuid_b)
  = Some "/static/carpool_map_7c9e6679-7425-40de-944b-e07fc1f90ae7.html".
Proof.
  repeat split; try (vm_compute; reflexivity).
  intros H. apply (f_equal map_url) in H. vm_compute in H. discriminate.
Qed.

Lemma deterministic_except_map_url_witness :
  matched_passengers (response_E_zero uuid_a) = matched_passengers (response_E_zero uuid_b)
  /\ unmatched_passengers (response_E_zero uuid_a)
     = unmatched_passengers (response_E_zero uuid_b)
  /\ seats_remaining (response_E_zero uuid_a) = seats_remaining (response_E_zero uuid_b)
  /\ map_url (response_E_zero uuid_a) = Some (map_url_of uuid_a)
  /\ map_url (response_E_zero uuid_b) = Some (map_url_of uuid_b).
Proof.
  apply (deterministic_except_map_url equator_km sample_decode (Some sample_client)
           (sample_request 1 [passenger_E] 0) uuid_a uuid_b [] [] (trace_E_zero uuid_a)
           (trace_E_zero uuid_b)).
  - vm_compute. reflexivity.
  - vm_compute. reflexivity.
Defined.

Lemma outputs_keep_input_order_witness :
  exists ps_m ps_u : list Passenger,
    sublist ps_m [passenger_A; passenger_B] /\
    sublist ps_u [passenger_A; passenger_B] /\
    Forall2 echoes (matched_passengers response_AB) ps_m /\
    Forall2 echoes (unmatched_passengers response_AB) ps_u.
Proof.
  exact (outputs_keep_input_order equator_km sample_decode (Some sample_client) uuid_a
           (sample_request 1 [passenger_A; passenger_B] 2) [] trace_AB response_AB
           handler_run_AB).
Defined.

(** ** Examples for the further properties *)

Lemma handler_run_A :
  match_passengers equator_km sample_decode (Some sample_client) uuid_a
    (sample_request 1 [passenger_A] 2) []
  = (inr response_A,
     trace_AB).
Proof. vm_compute. reflexivity. Qed.

Lemma handler_run_AD :
  match_passengers equator_km sample_decode (Some sample_client) uuid_a
    (sample_request 5 [passenger_A; passenger_D] 2) []
  = (inr response_AD,
     trace_AD).
Proof. vm_compute. reflexivity. Qed.

Lemma proximity_test_monotone_witness :
  returns (is_passenger_match equator_km [(0, 0); (0, 1); (0, 2)]%float
             (0, 0)%float (0, 2)%float 2) trace_AB true.
Proof.
  apply (proximity_test_monotone equator_km [(0, 0); (0, 2)]%float
           [(0, 0); (0, 1); (0, 2)]%float (0, 0)%float (0, 2)%float 0 2 [] trace_AB).
  - intros w Hw. apply elem_of_cons in Hw as [-> | Hw]; [by left|].
    apply list_elem_of_singleton in Hw as ->. right. right. by left.
  - vm_compute. reflexivity.
  - eexists. vm_compute. reflexivity.
Defined.

Lemma exhausted_loop_makes_no_call_witness :
  for_each (loop_body equator_km None [(0, 0); (0, 1); (0, 2)]%float 2) no_seats
    [passenger_A; passenger_C] trace_AB
  = (inr {| seats := 0; matched := [];
            unmatched := [no_seats_entry passenger_A; no_seats_entry passenger_C] |},
     trace_AB).
Proof.
  exact (exhausted_loop_makes_no_call equator_km None [(0, 0); (0, 1); (0, 2)]%float 2
           no_seats [passenger_A; passenger_C] trace_AB eq_refl).
Defined.

Lemma supplied_coordinates_are_authoritative_witness :
  (exists calls, trace_AB = [] ++ calls /\ Forall (fun e => is_geocode e = false) calls)
  /\ (forall geocode',
        match_passengers equator_km sample_decode
          (Some {| directions := directions sample_client; geocode := geocode' |})
          uuid_a (sample_request 1 [passenger_A; passenger_B] 2) []
        = (inr response_AB, trace_AB)).
Proof.
  apply (supplied_coordinates_are_authoritative equator_km sample_decode sample_client
           uuid_a (sample_request 1 [passenger_A; passenger_B] 2) [] trace_AB response_AB).
  - repeat constructor; by eexists.
  - exact handler_run_AB.
Defined.

Lemma request_trace_shape_witness :
  exists work,
    trace_AB
    = [] ++ EvDirections "A" "B"
         :: work ++ [EvSaveMap ("static/carpool_map_" +:+ uuid_a +:+ ".html")] /\
    Forall (fun e => is_geocode e || is_haversine e = true) work /\
    (length (List.filter is_geocode work) <= 2 * 2)%nat /\
    (length (List.filter is_haversine work)
     <= 2 * length (route_of sample_decode sample_client (sample_driver 1)) * 2)%nat.
Proof.
  exact (request_trace_shape equator_km sample_decode sample_client uuid_a
           (sample_request 1 [passenger_A; passenger_B] 2) [] trace_AB response_AB
           handler_run_AB).
Defined.

Lemma failed_origin_still_geocodes_destination_witness :
  loop_body equator_km (Some sample_client) [(0, 0); (0, 1); (0, 2)]%float 2
    five_seats passenger_C []
  = (inr {| seats := 5; matched := []; unmatched := [geocode_failed_entry passenger_C] |},
     [EvGeocode "unknown"; EvGeocode "end"]).
Proof.
  apply (failed_origin_still_geocodes_destination equator_km sample_client
           [(0, 0); (0, 1); (0, 2)]%float 2 five_seats passenger_C []);
    [simpl; lia | reflexivity | reflexivity | reflexivity].
Defined.

Lemma response_entries_shape_witness :
  Forall matched_shape (matched_passengers response_AB) /\
  Forall unmatched_shape (unmatched_passengers response_AB).
Proof.
  exact (response_entries_shape equator_km sample_decode (Some sample_client) uuid_a
           (sample_request 1 [passenger_A; passenger_B] 2) [] trace_AB response_AB
           handler_run_AB).
Defined.

Lemma matched_entries_are_near_witness :
  Forall (fun e => exists oc dc,
            e !! "origin_coords" = Some (VCoords oc) /\
            e !! "destination_coords" = Some (VCoords dc) /\
            (exists w, w ∈ route_of sample_decode sample_client (sample_driver 5) /\
                       PrimFloat.leb (equator_km oc w) 2 = true) /\
            (exists w, w ∈ route_of sample_decode sample_client (sample_driver 5) /\
                       PrimFloat.leb (equator_km dc w) 2 = true))
    (matched_passengers response_AD)
  /\
  Forall (fun e => reason_of e = Some "Not on driver's route" ->
            exists oc dc,
              e !! "origin_coords" = Some (VCoords oc) /\
              e !! "destination_coords" = Some (VCoords dc) /\
              ((forall w, w ∈ route_of sample_decode sample_client (sample_driver 5) ->
                          PrimFloat.leb (equator_km oc w) 2 = false) \/
               (forall w, w ∈ route_of sample_decode sample_client (sample_driver 5) ->
                          PrimFloat.leb (equator_km dc w) 2 = false)))
    (unmatched_passengers response_AD).
Proof.
  exact (matched_entries_are_near equator_km sample_decode sample_client uuid_a
           (sample_request 5 [passenger_A; passenger_D] 2) [] trace_AD response_AD
           handler_run_AD).
Defined.

Lemma no_seats_reason_means_no_seat_left_witness :
  seats_remaining response_AB = 0.
Proof.
  apply (no_seats_reason_means_no_seat_left equator_km sample_decode (Some sample_client)
           uuid_a (sample_request 1 [passenger_A; passenger_B] 2) [] trace_AB response_AB
           (no_seats_entry passenger_B) handler_run_AB).
  - by left.
  - reflexivity.
Defined.

Lemma enough_seats_partition_witness :
  matched_passengers response_AD
  = map (seated_entry equator_km sample_client
           (route_of sample_decode sample_client (sample_driver 5)) 2)
      (List.filter (on_route equator_km sample_client
                      (route_of sample_decode sample_client (sample_driver 5)) 2)
         [passenger_A; passenger_D]) /\
  unmatched_passengers response_AD
  = map (seated_entry equator_km sample_client
           (route_of sample_decode sample_client (sample_driver 5)) 2)
      (List.filter (fun p => negb (on_route equator_km sample_client
                      (route_of sample_decode sample_client (sample_driver 5)) 2 p))
         [passenger_A; passenger_D]) /\
  seats_remaining response_AD = 5 - Z.of_nat (length (matched_passengers response_AD)) /\
  0 < seats_remaining response_AD /\
  Forall (fun e => reason_of e <> Some "No seats available")
    (unmatched_passengers response_AD).
Proof.
  apply (enough_seats_partition equator_km sample_decode sample_client uuid_a
           (sample_request 5 [passenger_A; passenger_D] 2) [] trace_AD response_AD).
  - vm_compute. reflexivity.
  - exact handler_run_AD.
Defined.

Lemma later_passengers_change_nothing_before_witness :
  matched_passengers response_A `prefix_of` matched_passengers response_AB /\
  unmatched_passengers response_A `prefix_of` unmatched_passengers response_AB /\
  seats_remaining response_AB <= seats_remaining response_A.
Proof.
  exact (later_passengers_change_nothing_before equator_km sample_decode
           (Some sample_client) uuid_a uuid_a (sample_driver 1) 2
           [passenger_A] [passenger_B] [] trace_AB [] trace_AB response_A response_AB
           handler_run_A handler_run_AB).
Defined.

Lemma saved_map_is_served_witness :
  map_url response_AB = Some ("/static/" +:+ "carpool_map_" +:+ uuid_a +:+ ".html") /\
  (exists tr0, trace_AB = tr0 ++ [EvSaveMap ("static/carpool_map_" +:+ uuid_a +:+ ".html")]) /\
  (forall disk tr2,
     get_map disk ("carpool_map_" +:+ uuid_a +:+ ".html") tr2
     = match disk !! ("static/carpool_map_" +:+ uuid_a +:+ ".html") with
       | Some content => (inr content, tr2)
       | None => (inl (HTTPException 404 "Map not found"), tr2)
       end).
Proof.
  apply (saved_map_is_served equator_km sample_decode sample_client uuid_a
           (sample_request 1 [passenger_A; passenger_B] 2) [] trace_AB response_AB).
  - vm_compute. reflexivity.
  - exact handler_run_AB.
Defined.

Lemma drawn_map_AB :
  build_map [(0, 0); (0, 1); (0, 2)]%float
    (matched_passengers response_AB) (unmatched_passengers response_AB)
  = inr (Some map_AB).
Proof. vm_compute. reflexivity. Qed.

Lemma drawing_a_response_fails_only_on_nan_witness :
  route_line map_AB = route_of sample_decode sample_client (sample_driver 1) /\
  map_location map_AB ∈ route_of sample_decode sample_client (sample_driver 1) /\
  length (markers map_AB)
  = (1 + 2 * length (matched_passengers response_AB)
     + 2 * length (List.filter has_route_reason (unmatched_passengers response_AB)))%nat.
Proof.
  pose proof (drawing_a_response_fails_only_on_nan equator_km sample_decode
                sample_client uuid_a (sample_request 1 [passenger_A; passenger_B] 2)
                [] trace_AB response_AB handler_run_AB) as H.
  change (route_of sample_decode sample_client
            (driver (sample_request 1 [passenger_A; passenger_B] 2)))
    with [(0, 0); (0, 1); (0, 2)]%float in H.
  rewrite drawn_map_AB in H. exact H.
Defined.

Lemma skipped_entries_advance_the_offset_witness :
  unmatched_markers 0
    ([no_seats_entry passenger_B; geocode_failed_entry passenger_C]
     ++ [not_on_route_entry passenger_D (0, 0)%float (0, 5)%float])
  = unmatched_markers 2 [not_on_route_entry passenger_D (0, 0)%float (0, 5)%float].
Proof.
  apply (skipped_entries_advance_the_offset 0
           [no_seats_entry passenger_B; geocode_failed_entry passenger_C]
           [not_on_route_entry passenger_D (0, 0)%float (0, 5)%float]).
  repeat constructor; by left.
Defined.

Lemma matched_markers_positions_witness :
  markers map_AB !! 1%nat
  = Some {| marker_location := offset_coords (0, 0.0001)%float 0 default_offset;
            marker_popup := NamedPopup (VStr "A") " Pickup (Matched)";
            marker_color := "green" |} /\
  markers map_AB !! 2%nat
  = Some {| marker_location := offset_coords (0, 1.0001)%float 0 default_offset;
            marker_popup := NamedPopup (VStr "A") " Dropoff (Matched)";
            marker_color := "green" |}.
Proof.
  exact (matched_markers_positions [(0, 0); (0, 1); (0, 2)]%float
           (matched_passengers response_AB) (unmatched_passengers response_AB)
           map_AB 0 (matched_entry passenger_A (0, 0.0001)%float (0, 1.0001)%float)
           (0, 0.0001)%float (0, 1.0001)%float (VStr "A")
           drawn_map_AB eq_refl eq_refl eq_refl eq_refl).
Defined.

(** A coordinate that is not a number is never near, so the loop gives its
    passenger the route reason and both coordinates; drawing that entry is
    what raises the [ValueError]. *)
Example nan_coordinate_is_refused_when_drawn :
  returns (loop_body equator_km (Some sample_client) [(0, 0); (0, 1); (0, 2)]%float 2
             five_seats passenger_N) []
    {| seats := 5; matched := []; unmatched := unmatched_passengers response_N |} /\
  build_map [(0, 0); (0, 1); (0, 2)]%float [] (unmatched_passengers response_N)
  = inl ValueError.
Proof.
  split; [eexists; reflexivity | vm_compute; reflexivity].
Qed.
